(** * pg-mem: the filter and projection planner of [src/selection.ts]

    A shallow embedding of [buildSelection] and of the class [Selection]
    (construction, [enumerate], [hasItem], [entropy], [select], [filter],
    [buildFilter], [buildBinaryFilter], [buildComparison]), followed by the
    properties of the planner that the specification states.

    Conventions.
    - A thrown exception is the [Throw] case of [Result].
    - The module-level counter [selCnt] is threaded explicitly: a function that
      can reach [selCnt++] takes the counter and returns the new one.
    - A generator over a finite upstream is the list of the rows it yields.
    - Interfaces of the TypeScript code ([IValue], [_ISelection]) are records
      of their members; classes and functions imported from other files of the
      repository are the fields of the class [Externals].
    - The method [sql], which renders SQL text, is left out. *)

From stdpp Require Import gmap strings list pretty.
From Equations Require Import Equations.

Set Default Proof Using "Type".
#[local] Set Warnings "-clear-no-such-hyp".

(** ** Scalars and rows *)

(** What a compiled expression evaluates to.  The planner looks at such a
    value in two ways only: its truthiness ([if (val)]) and [?? null].
    Numbers are kept as integers; [SObject] is any other value (an array, a
    date, an object), known by a printed form. *)
Inductive Scalar : Type :=
| SUndefined
| SNull
| SBool (b : bool)
| SNum (n : Z)
| SStr (s : string)
| SObject (repr : string).

(** JavaScript truthiness, as in [if (val)] and [if (got)]. *)
Definition truthy (v : Scalar) : bool :=
  match v with
  | SUndefined | SNull => false
  | SBool b => b
  | SNum n => negb (n =? 0)%Z
  | SStr s => negb (String.eqb s "")
  | SObject _ => true
  end.

(** [v ?? null]. *)
Definition orNull (v : Scalar) : Scalar :=
  match v with
  | SUndefined | SNull => SNull
  | _ => v
  end.

(** A row object: its identity tag and its own properties. *)
Record Row : Type := mkRow {
  row_id : string;
  cells : gmap string Scalar }.

(** Modelled from the spec: [getId] of ./interfaces-private, the row-identity
    read primitive ("reading a stable identity string on an in-flight row"). *)
Definition getId (item : Row) : string := row_id item.

(** Modelled from the spec: [setId] of ./interfaces-private, the row-identity
    write primitive ("tagging a stable identity string on a row object"). *)
Definition setId (item : Row) (i : string) : Row :=
  {| row_id := i; cells := cells item |}.

(** The object literal [{}]. *)
Definition emptyRow : Row := {| row_id := ""; cells := ∅ |}.

(** [ret[k] = v] on an object that the literal [{}] made.  The assignment
    makes or overwrites the own property [k], for every key but one: under
    ["__proto__"] it runs the setter that the object inherits from
    [Object.prototype], and the object gets no own property. *)
Definition setCell (ret : Row) (k : string) (v : Scalar) : Row :=
  if decide (k = "__proto__") then ret
  else {| row_id := row_id ret; cells := <[k := v]> (cells ret) |}.

(** The names that an object made by the literal [{}] inherits from
    [Object.prototype]: a read [o[k]] under one of them finds the inherited
    member when [o] has no own property [k]. *)
Definition Object_prototype_names : list string :=
  ["constructor"; "__defineGetter__"; "__defineSetter__"; "hasOwnProperty";
   "__lookupGetter__"; "__lookupSetter__"; "isPrototypeOf";
   "propertyIsEnumerable"; "toString"; "valueOf"; "__proto__";
   "toLocaleString"].

(** ** Types, errors, compiled values *)

(** The part of ./interfaces and ./datatypes that the planner names:
    [DataType], the singletons [Types.bool] and [Types.null], [makeArray]. *)
Inductive DataType : Type :=
| DataType_text | DataType_int | DataType_bool | DataType_null | DataType_array.

Inductive IType : Type :=
| Types_text | Types_int | Types_bool | Types_null
| ArrayType (elt : IType).

Definition primary (t : IType) : DataType :=
  match t with
  | Types_text => DataType_text
  | Types_int => DataType_int
  | Types_bool => DataType_bool
  | Types_null => DataType_null
  | ArrayType _ => DataType_array
  end.

Definition makeArray (t : IType) : IType := ArrayType t.

Global Instance DataType_eq_dec : EqDecision DataType.
Proof. solve_decision. Defined.

Global Instance IType_eq_dec : EqDecision IType.
Proof. solve_decision. Defined.

(** The exceptions that can leave the planner. *)
Inductive Error : Type :=
| QueryError (msg : string)
| ColumnNotFound (column : string)
| CastError (from to : DataType)
| NotSupported (what : string)
| JsError (msg : string)
| TypeError.

Inductive Result (A : Type) : Type :=
| Ok (a : A)
| Throw (e : Error).
Arguments Ok {A} a.
Arguments Throw {A} e.

Definition Result_bind {A B : Type} (m : Result A) (k : A → Result B) : Result B :=
  match m with
  | Ok a => k a
  | Throw e => Throw e
  end.

Notation "'let!' x ':=' m 'in' k" := (Result_bind m (λ x, k))
  (at level 10, x name, m at level 100, k at level 200,
   format "'[v' 'let!'  x  ':='  m  'in' '/' k ']'").

(** The interface [IValue] as the planner reads it, and the index metadata
    [_IIndex] it may carry.  The back reference of a value to the selection it
    was compiled against is left out: the planner never follows it. *)
Inductive IValue : Type := mkValue {
  id : string;
  type : IType;
  isConstant : bool;
  index : option _IIndex;
  get : option Row → Scalar }
with _IIndex : Type := mkIndex {
  expressions : list IValue }.

(** ** Predicate syntax trees *)

(** The predicate is [any] in the source.  The planner reads four properties
    of it: [type], [operator], [left] and [right]; everything else is for the
    value compiler and is kept as one opaque string.  [Nullish] is [null] or
    [undefined] (an absent predicate, an absent property). *)
Inductive Ast : Type :=
| Nullish
| Node (type : option string) (operator : option string)
       (left right : Ast) (rest : string).

(** ['condition ' + filter.type] *)
Definition js_string (s : option string) : string := default "undefined" s.

(** ** Relations *)

(** The interface [_ISelectionSource] / [_ISelection]: what a Selection asks
    of its base and what the value compiler asks of a selection.  [entropy]
    is a JavaScript number that is only ever passed along. *)
Record _ISelection : Type := mkISelection {
  i_enumerate : list Row;
  i_hasItem : Row → bool;
  i_entropy : Z;
  i_getColumn : string → Result IValue;
  i_getIndex : IValue → option _IIndex }.

(** The class [Selection]: its private fields [base], [selPrefix] and
    [columnsById], and the public [columns]. *)
Record Selection : Type := mkSelection {
  base : _ISelection;
  selPrefix : string;
  columns : list IValue;
  columnsById : gmap string IValue }.

(** The relations [buildFilter] can return: the selection itself or a node
    of ./filters.  [buildAndFilter l r] stands for what the function of that
    name returns on [l] and [r]. *)
Inductive Plan : Type :=
| Self (this : Selection)
| EqFilter (onValue : IValue) (matches : list IValue)
| NeqFilter (onValue : IValue) (matches : list IValue)
| InFilter (onValue : IValue) (elts : IValue)
| NotInFilter (onValue : IValue) (elts : IValue)
| FalseFilter (on : Selection)
| SeqScanFilter (on : Selection) (getter : IValue)
| buildAndFilter (leftFilter rightFilter : Plan)
| OrFilter (leftFilter rightFilter : Plan).

(** Modelled from the spec: the class [FalseFilter] of ./filters/false-filter,
    the Always-False node: "[enumerate()] produces nothing, [hasItem] always
    false, regardless of upstream content". *)
Definition FalseFilter_enumerate (on : Selection) : list Row := [].

(** Modelled from the spec: [hasItem] of the class [FalseFilter] of
    ./filters/false-filter ("[hasItem] always false"). *)
Definition FalseFilter_hasItem (on : Selection) (x : Row) : bool := false.

(** ** What the planner imports *)

(** Functions and classes of other files of the repository, used through
    their signatures: [buildValue] (./predicate), [trimNullish] (./utils),
    the methods [convert] and [setId] and the constructor [Evaluator] of
    ./valuetypes, and its factories [Value.bool], [Value.isNull], [Value.in]. *)
Class Externals : Type := {
  buildValue : _ISelection → Ast → Result IValue;
  trimNullish : Ast → Ast;
  convert : IValue → DataType + IType → Result IValue;
  IValue_setId : IValue → string → IValue;
  Evaluator : IType → string → string → string → (option Row → Scalar) → IValue;
  Value_bool : bool → IValue;
  Value_isNull : IValue → bool → IValue;
  Value_in : IValue → IValue → bool → IValue }.

(** The argument of [select]: the sentinel ['*'] or a list of
    [{ expr, as }] items. *)
Record SelectItem : Type := mkItem {
  expr : Ast;
  as_ : option string }.

Inductive SelectArg : Type :=
| Star
| Columns (items : list SelectItem).

(** The interface [Schema] of ./interfaces, as the constructor reads it. *)
Record SchemaField : Type := mkField {
  field_id : string;
  field_type : IType }.

Record Schema : Type := mkSchema {
  fields : list SchemaField }.

(** The second argument of the constructor: [any[] | Schema]. *)
Inductive What : Type :=
| WArray (items : list SelectItem)
| WSchema (schema : Schema).

(** ** Output keys of unnamed columns *)

(** ['column' + cid] *)
Definition column_name (cid : nat) : string := "column" +:+ pretty cid.

(** One more turn of [do { nm = 'column' + (cid++); } while (ids.has(nm))]:
    the loop goes from [cid] to [S cid] when the name made from [cid] is
    taken. *)
Definition retry (ids : gset string) (next cid : nat) : Prop :=
  next = S cid ∧ column_name cid ∈ ids.

Lemma column_name_inj : Inj (=) (=) column_name.
Proof.
  intros m n Heq. unfold column_name in Heq.
  apply (inj (String.append "column")) in Heq.
  by apply (inj pretty) in Heq.
Qed.

Lemma column_name_not_proto (cid : nat) : column_name cid ≠ "__proto__".
Proof. unfold column_name. intros Heq. discriminate Heq. Qed.

Lemma retry_agree (ids ids' : gset string) (c d : nat) :
  (∀ k, c < k → column_name k ∈ ids → column_name k ∈ ids') →
  Acc (retry ids') d → c < d → Acc (retry ids) d.
Proof.
  intros Hsame Hacc. induction Hacc as [d _ IH]. intros Hlt.
  constructor. intros d' [-> Hin]. apply IH; [|lia].
  split; [done|]. by apply Hsame.
Qed.

Lemma retry_wf (ids : gset string) : well_founded (retry ids).
Proof.
  induction (set_wf ids) as [ids ? IH].
  intros c. constructor. intros c' [-> Hin].
  apply (retry_agree ids (ids ∖ {[column_name c]}) c); [| |lia].
  - intros k Hk Hk'. apply elem_of_difference. split; [done|].
    intros ->%elem_of_singleton%column_name_inj. lia.
  - apply IH. by apply subset_difference_elem_of.
Qed.

#[local] Instance retry_WellFounded (ids : gset string) : WellFounded (retry ids) :=
  wf_guard 32 (retry_wf ids).

(** The loop of [enumerate] that names a column without id:
    [do { nm = 'column' + (cid++); } while (ids.has(nm));].  It returns the
    name and the counter the loop leaves in [cid]. *)
Section NextName.
Variable ids : gset string.

Equations? next_name (cid : nat) : string * nat by wf cid (retry ids) :=
next_name cid with decide (column_name cid ∈ ids) := {
  | left _ => next_name (S cid)
  | right _ => (column_name cid, S cid) }.
Proof. by split. Qed.

End NextName.

(** The callback of [this.columns.map(...)], with the variable [cid] it
    closes over made explicit. *)
Fixpoint columnIds_from (ids : gset string) (cid : nat) (cols : list IValue)
    {struct cols} : list string :=
  match cols with
  | [] => []
  | x :: rest =>
      if decide (id x = "") then
        let nm := next_name ids cid in
        nm.1 :: columnIds_from ids nm.2 rest
      else id x :: columnIds_from ids cid rest
  end.

(** [ids] and [columnIds] of [enumerate]. *)
Definition columnIds (cols : list IValue) : list string :=
  columnIds_from (list_to_set (id <$> cols)) 0 cols.

(** ** The file [selection.ts] *)

Module selection.

(** [get entropy()] *)
Definition entropy (this : Selection) : Z := i_entropy (base this).

(** [hasItem(value)] *)
Definition hasItem (this : Selection) (value : Row) : bool :=
  i_hasItem (base this) value.

(** The body of the [for (const item of this.base.enumerate())] loop: the
    row built for one upstream [item]. *)
Definition project (this : Selection) (columnIds : list string) (item : Row) : Row :=
  let ret := setId emptyRow (selPrefix this +:+ getId item) in
  foldl (λ ret '(k, col), setCell ret k (orNull (get col (Some item))))
        ret (zip columnIds (columns this)).

(** [*enumerate()] *)
Definition enumerate (this : Selection) : list Row :=
  let columnIds := columnIds (columns this) in
  project this columnIds <$> i_enumerate (base this).

(** [getColumn(column)].  The lookup [this.columnsById[column]] is read as
    the column last stored under [column]; where none was stored it is read
    as [undefined], and the method throws.  This is what the code does for
    every [column] that is the id of a column, and for every other [column]
    outside [Object_prototype_names] as long as no column has the id
    ["__proto__"].  Outside of this the lookup of the code finds a member
    that [columnsById] inherits (from [Object.prototype], or from the column
    that the assignment under ["__proto__"] made its prototype), and the
    method returns it: the statements about columns that are not found carry
    these two conditions. *)
Definition getColumn (this : Selection) (column : string) : Result IValue :=
  match columnsById this !! column with
  | Some ret => Ok ret
  | None => Throw (ColumnNotFound column)
  end.

(** [getIndex(forValue)] *)
Definition getIndex (this : Selection) (forValue : IValue) : option _IIndex :=
  i_getIndex (base this) forValue.

(** A Selection seen through the interface [_ISelection] it implements. *)
Definition as_ISelection (this : Selection) : _ISelection :=
  {| i_enumerate := enumerate this;
     i_hasItem := hasItem this;
     i_entropy := entropy this;
     i_getColumn := getColumn this;
     i_getIndex := getIndex this |}.

Section Planner.
Context {ext : Externals}.

(** The [for (const s of what)] loop of the constructor, on the pair
    [(this.columns, this.columnsById)]. *)
Fixpoint addColumns (base : _ISelection) (what : list SelectItem)
    (acc : list IValue * gmap string IValue)
  : Result (list IValue * gmap string IValue) :=
  match what with
  | [] => Ok acc
  | s :: rest =>
      let! col := buildValue base (expr s) in
      let col := match as_ s with
                 | Some a => if decide (a = "") then col else IValue_setId col a
                 | None => col
                 end in
      addColumns base rest (acc.1 ++ [col], <[id col := col]> acc.2)
  end.

(** The [for (const _col of what.fields)] loop of the constructor.  The
    getter [raw => raw[col.id]] is read on the own properties of the row:
    under an id that is one of [Object_prototype_names] the code finds the
    member that the row inherits, where this getter gives [undefined]. *)
Fixpoint addFields (what : list SchemaField)
    (acc : list IValue * gmap string IValue)
  : list IValue * gmap string IValue :=
  match what with
  | [] => acc
  | col :: rest =>
      let newCol :=
        Evaluator (field_type col) (field_id col) (field_id col) (field_id col)
          (λ raw, default SUndefined (raw ≫= λ r, cells r !! field_id col)) in
      addFields rest (acc.1 ++ [newCol], <[id newCol := newCol]> acc.2)
  end.

(** [constructor(base, what)], from the value [selCnt] of the counter to the
    outcome and the new value of the counter. *)
Definition constructor (base : _ISelection) (what : What) (selCnt : nat)
  : Result Selection * nat :=
  match what with
  | WArray items =>
      match items with
      | [] => (Throw (QueryError "Invalid selection"), selCnt)
      | _ =>
          match addColumns base items ([], ∅) with
          | Throw e => (Throw e, selCnt)
          | Ok (cols, byId) =>
              (Ok {| base := base; selPrefix := "s" +:+ pretty selCnt;
                     columns := cols; columnsById := byId |},
               S selCnt)
          end
      end
  | WSchema schema =>
      let '(cols, byId) := addFields (fields schema) ([], ∅) in
      (Ok {| base := base; selPrefix := ""; columns := cols; columnsById := byId |},
       selCnt)
  end.

(** [buildSelection(on, select)] *)
Definition buildSelection (on : _ISelection) (select : SelectArg) (selCnt : nat)
  : Result _ISelection * nat :=
  match select with
  | Star => (Ok on, selCnt)
  | Columns items =>
      match constructor on (WArray items) selCnt with
      | (Ok s, selCnt') => (Ok (as_ISelection s), selCnt')
      | (Throw e, selCnt') => (Throw e, selCnt')
      end
  end.

(** [select(select)] *)
Definition select (this : Selection) (select : SelectArg) (selCnt : nat)
  : Result _ISelection * nat :=
  buildSelection (as_ISelection this) select selCnt.

(** [operator === o1 || operator === o2 || ...], and the [case] labels of a
    [switch (operator)]. *)
Definition is_op (operator : option string) (ops : list string) : bool :=
  match operator with
  | Some op => bool_decide (op ∈ ops)
  | None => false
  end.

(** Truthiness of [v.index]. *)
Definition has_index (v : IValue) : bool :=
  match index v with
  | Some _ => true
  | None => false
  end.

(** [v.index?.expressions.length === 1] *)
Definition has_single_index (v : IValue) : bool :=
  match index v with
  | Some i => bool_decide (length (expressions i) = 1)
  | None => false
  end.

(** [buildComparison(filter)] *)
Definition buildComparison (this : Selection) (filter : Ast) : Result Plan :=
  match filter with
  | Nullish => Throw TypeError
  | Node _ operator left_ right_ _ =>
      let! leftValue := buildValue (as_ISelection this) left_ in
      let! rightValue := buildValue (as_ISelection this) right_ in
      if isConstant leftValue && isConstant rightValue then
        let! global := buildValue (as_ISelection this) filter in
        let got := get global None in
        if truthy got then Ok (Self this) else Ok (FalseFilter this)
      else
        let scan :=
          let! getter := buildValue (as_ISelection this) filter in
          Ok (SeqScanFilter this getter) in
        if is_op operator ["="; "!="; "<>"] then
          if has_index leftValue && isConstant rightValue then
            Ok (if is_op operator ["="]
                then EqFilter leftValue [rightValue]
                else NeqFilter leftValue [rightValue])
          else if has_index rightValue && isConstant leftValue then
            Ok (if is_op operator ["="]
                then EqFilter rightValue [leftValue]
                else NeqFilter rightValue [leftValue])
          else scan
        else scan
  end.

(** [buildBinaryFilter(filter)], with its calls to [this.buildFilter] going
    through the first argument. *)
Definition buildBinaryFilter_with (buildFilter : Ast → Result Plan)
    (this : Selection) (filter : Ast) : Result Plan :=
  match filter with
  | Nullish => Throw TypeError
  | Node _ operator left_ right_ _ =>
      if is_op operator ["="; ">"; "<"; "<="; ">="] then
        buildComparison this filter
      else if is_op operator ["AND"; "OR"] then
        let! leftFilter := buildFilter left_ in
        let! rightFilter := buildFilter right_ in
        Ok (if is_op operator ["AND"]
            then buildAndFilter leftFilter rightFilter
            else OrFilter leftFilter rightFilter)
      else if is_op operator ["IS"; "IS NOT"] then
        let! rightValue := buildValue (as_ISelection this) right_ in
        if decide (type rightValue = Types_null) then
          let! leftValue := buildValue (as_ISelection this) left_ in
          if has_index leftValue then
            Ok (if is_op operator ["IS"]
                then EqFilter leftValue [rightValue]
                else NeqFilter leftValue [rightValue])
          else
            Ok (SeqScanFilter this (Value_isNull leftValue (is_op operator ["IS"])))
        else Throw (NotSupported "only IS NULL is supported")
      else if is_op operator ["IN"; "NOT IN"] then
        let! value := buildValue (as_ISelection this) left_ in
        let! elts := buildValue (as_ISelection this) right_ in
        let! array := convert elts (inr (makeArray (type value))) in
        if isConstant array && has_single_index value then
          Ok (if is_op operator ["IN"]
              then InFilter value array
              else NotInFilter value array)
        else
          Ok (SeqScanFilter this (Value_in value array (is_op operator ["IN"])))
      else
        let! getter := buildValue (as_ISelection this) filter in
        Ok (SeqScanFilter this getter)
  end.

(** [buildFilter(filter)] *)
Fixpoint buildFilter (this : Selection) (filter : Ast) {struct filter}
  : Result Plan :=
  let! built := buildValue (as_ISelection this) filter in
  match index built with
  | Some i =>
      match expressions i with
      | [key] =>
          let itype := type key in
          if decide (itype = Types_bool) then
            Ok (EqFilter built [Value_bool true])
          else Throw (CastError (primary itype) DataType_bool)
      | _ => Throw (JsError "Was not expecing multiples expressions filter")
      end
  | None =>
      if isConstant built then
        let! converted := convert built (inl DataType_bool) in
        let val := get converted None in
        if truthy val then Ok (Self this) else Ok (FalseFilter this)
      else
        match filter with
        | Nullish => Throw TypeError
        | Node type _ _ _ _ =>
            if decide (type = Some "binary_expr") then
              buildBinaryFilter_with (buildFilter this) this filter
            else Throw (NotSupported ("condition " +:+ js_string type))
        end
  end.

(** [buildBinaryFilter(filter)] *)
Definition buildBinaryFilter (this : Selection) (filter : Ast) : Result Plan :=
  buildBinaryFilter_with (buildFilter this) this filter.

(** [filter(filter)] *)
Definition filter (this : Selection) (filter : Ast) : Result Plan :=
  match filter with
  | Nullish => Ok (Self this)
  | Node _ _ _ _ _ => buildFilter this (trimNullish filter)
  end.

End Planner.
End selection.

(** ** Vocabulary of the properties *)

(** A chain of nested Selections over explicit column lists: [select] is
    applied to [src] with the first list, to the result with the second
    list, and so on. *)
Fixpoint nest `{Externals} (src : _ISelection) (layers : list (list SelectItem))
    (selCnt : nat) : Result _ISelection * nat :=
  match layers with
  | [] => (Ok src, selCnt)
  | items :: outer =>
      match selection.buildSelection src (Columns items) selCnt with
      | (Ok inner, selCnt') => nest inner outer selCnt'
      | (Throw e, selCnt') => (Throw e, selCnt')
      end
  end.

(** The alias prefixes of [k] Selections made one after the other from the
    counter value [selCnt], the last one made first:
    ["s" + (selCnt + k - 1)], ..., ["s" + selCnt]. *)
Fixpoint chain_prefix (selCnt k : nat) : string :=
  match k with
  | 0 => ""
  | S k' => chain_prefix (S selCnt) k' +:+ ("s" +:+ pretty selCnt)
  end.

(** The left operand of [IN] carries an index with exactly one key
    expression. *)
Definition single_key_index (value : IValue) : Prop :=
  ∃ i key, index value = Some i ∧ expressions i = [key].

(** ** A small instance: one table, one value compiler

    The closed examples below run the planner on a table [users] of two rows
    with an indexed integer column [id], an indexed boolean column [active]
    and a plain column [name], and on a value compiler for column references,
    literals and binary expressions. *)

Module Fixture.

Global Instance Scalar_eq_dec : EqDecision Scalar.
Proof. solve_decision. Defined.

Definition read (name : string) (raw : option Row) : Scalar :=
  default SUndefined (raw ≫= λ r, cells r !! name).

Definition plain (name : string) (t : IType) : IValue :=
  mkValue name t false None (read name).

Definition indexed (name : string) (t : IType) : IValue :=
  mkValue name t false (Some (mkIndex [plain name t])) (read name).

Definition literal (t : IType) (v : Scalar) : IValue :=
  mkValue "" t true None (λ _, v).

Definition col_id : IValue := indexed "id" Types_int.
Definition col_active : IValue := indexed "active" Types_bool.
Definition col_name : IValue := plain "name" Types_text.

Definition user (i : string) (n : Z) (name : string) (active : bool) : Row :=
  {| row_id := i;
     cells := <["id" := SNum n]> (<["name" := SStr name]>
                (<["active" := SBool active]> ∅)) |}.

Definition rows : list Row :=
  [user "u1" 1 "ada" true; user "u2" 2 "bob" false].

Definition table_columns : gmap string IValue :=
  <["id" := col_id]> (<["active" := col_active]> (<["name" := col_name]> ∅)).

Definition users : _ISelection :=
  {| i_enumerate := rows;
     i_hasItem := λ r, bool_decide (row_id r ∈ row_id <$> rows);
     i_entropy := 2;
     i_getColumn := λ c, match table_columns !! c with
                         | Some v => Ok v
                         | None => Throw (ColumnNotFound c)
                         end;
     i_getIndex := λ v, index v |}.

(** A value compiler: column references, number / boolean / null literals,
    constant lists, binary expressions; anything else is refused. *)
Fixpoint compile (on : _ISelection) (e : Ast) : Result IValue :=
  match e with
  | Nullish => Throw TypeError
  | Node (Some "column_ref") _ _ _ name => i_getColumn on name
  | Node (Some "number") _ _ _ "1" => Ok (literal Types_int (SNum 1))
  | Node (Some "number") _ _ _ "2" => Ok (literal Types_int (SNum 2))
  | Node (Some "bool") _ _ _ "true" => Ok (literal Types_bool (SBool true))
  | Node (Some "bool") _ _ _ "false" => Ok (literal Types_bool (SBool false))
  | Node (Some "null") _ _ _ _ => Ok (literal Types_null SNull)
  | Node (Some "expr_list") _ _ _ _ =>
      Ok (literal (ArrayType Types_int) (SObject "[1,2]"))
  | Node (Some "binary_expr") (Some op) l r _ =>
      let! a := compile on l in
      let! b := compile on r in
      Ok (mkValue "" Types_bool (isConstant a && isConstant b) None
            (λ raw, if decide (op = "=")
                    then SBool (bool_decide (get a raw = get b raw))
                    else if decide (op = "!=" ∨ op = "<>")
                    then SBool (negb (bool_decide (get a raw = get b raw)))
                    else SNull))
  | Node t _ _ _ _ => Throw (NotSupported ("expression " +:+ js_string t))
  end.

Definition collaborators : Externals :=
  {| buildValue := compile;
     trimNullish := λ e, e;
     convert := λ v _, Ok v;
     IValue_setId := λ v i, mkValue i (type v) (isConstant v) (index v) (get v);
     Evaluator := λ t i _ _ val, mkValue i t false None val;
     Value_bool := λ b, literal Types_bool (SBool b);
     Value_isNull := λ v isNull,
       mkValue "" Types_bool (isConstant v) None
         (λ raw, SBool (if isNull then bool_decide (orNull (get v raw) = SNull)
                        else negb (bool_decide (orNull (get v raw) = SNull))));
     Value_in := λ v a isIn,
       mkValue "" Types_bool (isConstant v && isConstant a) None (λ raw, SNull) |}.

(** Syntax trees. *)
Definition column_ref (name : string) : Ast :=
  Node (Some "column_ref") None Nullish Nullish name.
Definition number (n : string) : Ast :=
  Node (Some "number") None Nullish Nullish n.
Definition expr_list : Ast :=
  Node (Some "expr_list") None Nullish Nullish "".
Definition binary_expr (op : string) (l r : Ast) : Ast :=
  Node (Some "binary_expr") (Some op) l r "".
(** The object [{}], which is also what is left of an object all of whose
    properties were null-ish. *)
Definition empty_object : Ast := Node None None Nullish Nullish "".

Definition item (e : Ast) : SelectItem := {| expr := e; as_ := None |}.

(** [SELECT id, name, active FROM users], built when the counter is at [0]. *)
Definition users_sel : Selection :=
  {| base := users;
     selPrefix := "s0";
     columns := [col_id; col_name; col_active];
     columnsById :=
       <["active" := col_active]> (<["name" := col_name]> (<["id" := col_id]> ∅)) |}.

End Fixture.


(** * Properties of the filter planner *)

Section FilterPlanning.
Context {ext : Externals}.
Implicit Types (this : Selection) (filter l r : Ast) (built value : IValue).

(** [buildFilter] is defined by recursion on the predicate; this is its body
    for any predicate. *)
Lemma buildFilter_unfold this filter :
  selection.buildFilter this filter =
  let! built := buildValue (selection.as_ISelection this) filter in
  match index built with
  | Some i =>
      match expressions i with
      | [key] =>
          if decide (type key = Types_bool)
          then Ok (EqFilter built [Value_bool true])
          else Throw (CastError (primary (type key)) DataType_bool)
      | _ => Throw (JsError "Was not expecing multiples expressions filter")
      end
  | None =>
      if isConstant built then
        let! converted := convert built (inl DataType_bool) in
        if truthy (get converted None) then Ok (Self this) else Ok (FalseFilter this)
      else
        match filter with
        | Nullish => Throw TypeError
        | Node kind _ _ _ _ =>
            if decide (kind = Some "binary_expr")
            then selection.buildBinaryFilter this filter
            else Throw (NotSupported ("condition " +:+ js_string kind))
        end
  end.
Proof. by destruct filter. Qed.

(** A predicate that compiles to a value without index and not constant is
    dispatched on its [type]. *)
Lemma buildFilter_dispatch this kind operator l r rest built :
  buildValue (selection.as_ISelection this) (Node kind operator l r rest) = Ok built →
  index built = None → isConstant built = false →
  selection.buildFilter this (Node kind operator l r rest) =
  if decide (kind = Some "binary_expr")
  then selection.buildBinaryFilter this (Node kind operator l r rest)
  else Throw (NotSupported ("condition " +:+ js_string kind)).
Proof.
  intros Hbuilt Hindex Hconst.
  rewrite buildFilter_unfold, Hbuilt. simpl. by rewrite Hindex, Hconst.
Qed.

(** The operators ['!='] and ['<>'] have no [case] in the [switch] of
    [buildBinaryFilter]: they reach its [default] branch. *)
Lemma buildBinaryFilter_inequality_default this kind operator l r rest :
  operator = Some "!=" ∨ operator = Some "<>" →
  selection.buildBinaryFilter this (Node kind operator l r rest) =
  let! getter := buildValue (selection.as_ISelection this) (Node kind operator l r rest) in
  Ok (SeqScanFilter this getter).
Proof. by intros [-> | ->]. Qed.

(** A binary expression with one of the five [case] labels of the first
    group goes to [buildComparison]. *)
Lemma buildFilter_comparison this operator l r rest built :
  selection.is_op operator ["="; ">"; "<"; "<="; ">="] = true →
  buildValue (selection.as_ISelection this)
    (Node (Some "binary_expr") operator l r rest) = Ok built →
  index built = None → isConstant built = false →
  selection.buildFilter this (Node (Some "binary_expr") operator l r rest) =
  selection.buildComparison this (Node (Some "binary_expr") operator l r rest).
Proof.
  intros Hop Hbuilt Hindex Hconst.
  rewrite (buildFilter_dispatch _ _ _ _ _ _ built) by done.
  rewrite decide_True by done.
  unfold selection.buildBinaryFilter, selection.buildBinaryFilter_with.
  by rewrite Hop.
Qed.

(** X1. Equality on an indexed operand. For [l = r] whose compiled form is
    neither indexed nor constant, and whose operands are not both constant:
    the Equality node is keyed on the left operand when that one carries an
    index and the right one is constant, and on the right operand when that
    one carries an index and the left one is constant. *)
Theorem buildFilter_equality_indexed this l r rest built leftValue rightValue :
  buildValue (selection.as_ISelection this)
    (Node (Some "binary_expr") (Some "=") l r rest) = Ok built →
  index built = None → isConstant built = false →
  buildValue (selection.as_ISelection this) l = Ok leftValue →
  buildValue (selection.as_ISelection this) r = Ok rightValue →
  isConstant leftValue && isConstant rightValue = false →
  (selection.has_index leftValue = true → isConstant rightValue = true →
     selection.buildFilter this (Node (Some "binary_expr") (Some "=") l r rest) =
     Ok (EqFilter leftValue [rightValue])) ∧
  (selection.has_index rightValue = true → isConstant leftValue = true →
     selection.buildFilter this (Node (Some "binary_expr") (Some "=") l r rest) =
     Ok (EqFilter rightValue [leftValue])).
Proof.
  intros Hbuilt Hindex Hconst Hl Hr Hboth.
  rewrite (buildFilter_comparison _ _ _ _ _ built) by done.
  unfold selection.buildComparison. rewrite Hl, Hr. simpl. rewrite Hboth.
  split.
  - intros -> ->. done.
  - intros Hri Hlc. rewrite Hlc in Hboth. simpl in Hboth.
    rewrite Hboth, Hri, Hlc, andb_false_r. done.
Qed.

(** X2. Ordering comparisons get no index treatment. For [l > r], [l < r],
    [l <= r], [l >= r] whose compiled form is neither indexed nor constant
    and whose operands are not both constant, the plan is a Brute-Force-Scan
    over the compiled comparison, whatever index the operands carry. *)
Theorem buildFilter_ordering_scans this operator l r rest built leftValue rightValue :
  operator ∈ [">"; "<"; "<="; ">="] →
  buildValue (selection.as_ISelection this)
    (Node (Some "binary_expr") (Some operator) l r rest) = Ok built →
  index built = None → isConstant built = false →
  buildValue (selection.as_ISelection this) l = Ok leftValue →
  buildValue (selection.as_ISelection this) r = Ok rightValue →
  isConstant leftValue && isConstant rightValue = false →
  selection.buildFilter this (Node (Some "binary_expr") (Some operator) l r rest) =
  Ok (SeqScanFilter this built).
Proof.
  intros Hop Hbuilt Hindex Hconst Hl Hr Hboth.
  rewrite (buildFilter_comparison _ _ _ _ _ built); [|by set_solver|done..].
  unfold selection.buildComparison. rewrite Hl, Hr. simpl. rewrite Hboth, Hbuilt.
  by repeat (apply elem_of_cons in Hop as [->|Hop]; [done|]); apply elem_of_nil in Hop.
Qed.

(** X3. Only binary expressions are lowered. A predicate of another kind whose
    compiled form is neither indexed nor constant is refused with
    [NotSupported('condition ' + kind)]. *)
Theorem buildFilter_unsupported_kind this kind operator l r rest built :
  kind ≠ Some "binary_expr" →
  buildValue (selection.as_ISelection this) (Node kind operator l r rest) = Ok built →
  index built = None → isConstant built = false →
  selection.buildFilter this (Node kind operator l r rest) =
  Throw (NotSupported ("condition " +:+ js_string kind)).
Proof.
  intros Hkind Hbuilt Hindex Hconst.
  rewrite (buildFilter_dispatch _ _ _ _ _ _ built) by done.
  by rewrite decide_False.
Qed.

(** C3. When the compiled predicate carries index metadata, [buildFilter]
    throws the internal error if the index does not have exactly one key
    expression, throws [CastError(actual type, bool)] if the one key is not
    of type boolean, and otherwise returns the Equality node matching the
    compiled predicate against the literal [true]. *)
Theorem buildFilter_indexed_predicate this filter built i :
  buildValue (selection.as_ISelection this) filter = Ok built →
  index built = Some i →
  (length (expressions i) ≠ 1 →
     selection.buildFilter this filter =
     Throw (JsError "Was not expecing multiples expressions filter")) ∧
  (∀ key, expressions i = [key] → type key ≠ Types_bool →
     selection.buildFilter this filter =
     Throw (CastError (primary (type key)) DataType_bool)) ∧
  (∀ key, expressions i = [key] → type key = Types_bool →
     selection.buildFilter this filter = Ok (EqFilter built [Value_bool true])).
Proof.
  intros Hbuilt Hindex. rewrite buildFilter_unfold, Hbuilt. simpl. rewrite Hindex.
  split; [|split].
  - intros Hlen. by destruct (expressions i) as [|key [|]].
  - intros key -> Hty. by case_decide.
  - intros key -> Hty. by case_decide.
Qed.

(** C2. When the compiled predicate is constant and carries no index,
    [buildFilter] converts it to boolean, evaluates it once on the null row,
    and returns the selection itself if the result is truthy, else the
    Always-False node over the selection; that node enumerates nothing and
    has no item, whatever the selection holds. *)
Theorem buildFilter_constant_predicate this filter built converted :
  buildValue (selection.as_ISelection this) filter = Ok built →
  index built = None →
  isConstant built = true →
  convert built (inl DataType_bool) = Ok converted →
  selection.buildFilter this filter =
    Ok (if truthy (get converted None) then Self this else FalseFilter this) ∧
  FalseFilter_enumerate this = [] ∧
  ∀ x, FalseFilter_hasItem this x = false.
Proof.
  intros Hbuilt Hindex Hconst Hconv. split; [|done].
  rewrite buildFilter_unfold, Hbuilt. simpl. rewrite Hindex, Hconst, Hconv. simpl.
  by destruct (truthy _).
Qed.

Lemma has_single_index_spec value :
  selection.has_single_index value = true ↔ single_key_index value.
Proof.
  unfold selection.has_single_index, single_key_index.
  destruct (index value) as [i|]; [|naive_solver].
  rewrite bool_decide_eq_true. split.
  - intros Hlen. destruct (expressions i) as [|key [|]] eqn:He; try done. by exists i, key.
  - intros (i' & key & [= <-] & ->). done.
Qed.

(** C4. For [IN] and [NOT IN], with the left operand compiled to [value] and
    the right operand compiled and converted to [array] (an array of the
    type of [value]): [buildBinaryFilter] returns the Membership node (for
    [IN]) or the Non-Membership node (for [NOT IN]) exactly when [array] is
    constant and [value] carries an index with one key expression, and a
    Brute-Force-Scan node over the membership test in every other case. *)
Theorem buildBinaryFilter_membership this kind operator l r rest value elts array :
  operator = Some "IN" ∨ operator = Some "NOT IN" →
  buildValue (selection.as_ISelection this) l = Ok value →
  buildValue (selection.as_ISelection this) r = Ok elts →
  convert elts (inr (makeArray (type value))) = Ok array →
  (isConstant array = true ∧ single_key_index value →
     selection.buildBinaryFilter this (Node kind operator l r rest) =
     Ok (if decide (operator = Some "IN")
         then InFilter value array else NotInFilter value array)) ∧
  (¬ (isConstant array = true ∧ single_key_index value) →
     selection.buildBinaryFilter this (Node kind operator l r rest) =
     Ok (SeqScanFilter this
           (Value_in value array (bool_decide (operator = Some "IN"))))) ∧
  ((isConstant array = true ∧ single_key_index value) ↔
     selection.buildBinaryFilter this (Node kind operator l r rest) = Ok (InFilter value array) ∨
     selection.buildBinaryFilter this (Node kind operator l r rest) = Ok (NotInFilter value array)).
Proof.
  intros Hop Hl Hr Hconv.
  assert (selection.buildBinaryFilter this (Node kind operator l r rest) =
          if isConstant array && selection.has_single_index value
          then Ok (if decide (operator = Some "IN")
                   then InFilter value array else NotInFilter value array)
          else Ok (SeqScanFilter this
                     (Value_in value array (bool_decide (operator = Some "IN")))))
    as ->.
  { unfold selection.buildBinaryFilter, selection.buildBinaryFilter_with.
    destruct Hop as [-> | ->]; simpl; rewrite Hl, Hr; simpl; rewrite Hconv; simpl;
      by destruct (isConstant array && selection.has_single_index value). }
  pose proof (has_single_index_spec value) as Hspec.
  destruct (isConstant array) eqn:Hc, (selection.has_single_index value) eqn:Hs; simpl;
    (split; [|split; [|split]]); naive_solver.
Qed.

(** C5, as the code has it. [filter] returns the selection itself when the
    predicate is absent (null-ish); any other predicate is null-stripped and
    handed to [buildFilter], whatever the stripping left of it. *)
Theorem filter_absent_predicate this :
  selection.filter this Nullish = Ok (Self this) ∧
  ∀ kind operator l r rest,
    selection.filter this (Node kind operator l r rest) =
    selection.buildFilter this (trimNullish (Node kind operator l r rest)).
Proof. done. Qed.

(** C7. Selecting ['*'] returns the relation it was asked of, and leaves the
    counter [selCnt] alone: no Selection is constructed, no prefix is
    minted. *)
Theorem select_star_returns_relation (on : _ISelection) this (selCnt : nat) :
  selection.buildSelection on Star selCnt = (Ok on, selCnt) ∧
  selection.select this Star selCnt = (Ok (selection.as_ISelection this), selCnt).
Proof. done. Qed.

End FilterPlanning.


(** * Properties of projection *)

Section Projection.
Implicit Types (this : Selection) (cols : list IValue) (ids : gset string).

(** ** The naming loop *)

Lemma next_name_taken ids cid :
  column_name cid ∈ ids → next_name ids cid = next_name ids (S cid).
Proof.
  intros Hin. rewrite next_name_equation_1.
  by destruct (decide (column_name cid ∈ ids)).
Qed.

Lemma next_name_free ids cid :
  column_name cid ∉ ids → next_name ids cid = (column_name cid, S cid).
Proof.
  intros Hin. rewrite next_name_equation_1.
  by destruct (decide (column_name cid ∈ ids)).
Qed.

(** The loop stops at the first counter value, from [cid] on, whose name is
    not an id. *)
Lemma next_name_first_free ids cid :
  ∃ N, next_name ids cid = (column_name N, S N) ∧ cid ≤ N ∧
       (column_name N ∉ ids) ∧
       ∀ K, cid ≤ K < N → column_name K ∈ ids.
Proof.
  induction (retry_wf ids cid) as [cid _ IH].
  destruct (decide (column_name cid ∈ ids)) as [Hin|Hout].
  - destruct (IH (S cid)) as (N & Heq & Hle & Hfree & Hbelow); [done|].
    exists N. rewrite next_name_taken by done.
    split_and!; [done|lia|done|].
    intros K HK. destruct (decide (K = cid)) as [->|]; [done|].
    apply Hbelow. lia.
  - exists cid. rewrite next_name_free by done.
    split_and!; [done..|]. intros K HK. lia.
Qed.

(** ** The output keys *)

Lemma columnIds_from_length ids cid cols :
  length (columnIds_from ids cid cols) = length cols.
Proof.
  revert cid. induction cols as [|x rest IH]; intros cid; simpl; [done|].
  case_decide; simpl; by rewrite IH.
Qed.

Lemma columnIds_from_explicit ids cid cols i c :
  cols !! i = Some c → id c ≠ "" →
  columnIds_from ids cid cols !! i = Some (id c).
Proof.
  revert cid i. induction cols as [|x rest IH]; intros cid i Hi Hid; [done|].
  simpl. destruct i as [|i]; simpl in *.
  - injection Hi as ->. by case_decide.
  - case_decide; simpl; by apply IH.
Qed.

(** The key of an unnamed column. It is made from the first number [N], not
    below the counter [cid], whose name is no id; the unnamed columns before
    it have keys made from smaller numbers, and each number from [cid] up to
    [N] is an id or the key of one of them. *)
Lemma columnIds_from_unnamed ids cid cols i c :
  cols !! i = Some c → id c = "" →
  ∃ N, columnIds_from ids cid cols !! i = Some (column_name N) ∧
       cid ≤ N ∧ (column_name N ∉ ids) ∧
       (∀ j c' M, j < i → cols !! j = Some c' → id c' = "" →
          columnIds_from ids cid cols !! j = Some (column_name M) → cid ≤ M < N) ∧
       (∀ K, cid ≤ K < N →
          column_name K ∈ ids ∨
          ∃ j c', j < i ∧ cols !! j = Some c' ∧ id c' = "" ∧
                  columnIds_from ids cid cols !! j = Some (column_name K)).
Proof.
  revert cid i. induction cols as [|x rest IH]; intros cid i Hi Hid; [done|].
  simpl. destruct (decide (id x = "")) as [Hx|Hx].
  - destruct (next_name_first_free ids cid) as (N0 & -> & Hle0 & Hfree0 & Hbelow0).
    simpl. destruct i as [|i]; simpl in *.
    + exists N0. split_and!; [done..| |].
      * intros j c' M Hj. lia.
      * intros K HK. left. by apply Hbelow0.
    + destruct (IH (S N0) i Hi Hid) as (N & Hkey & Hle & Hfree & Hmono & Hmin).
      exists N. split_and!; [done|lia|done| |].
      * intros [|j] c' M Hj Hc' Hidc' Hkeyj; simpl in *.
        -- assert (N0 = M) by (apply column_name_inj; congruence). lia.
        -- assert (S N0 ≤ M < N) by (eapply (Hmono j); [lia|done..]). lia.
      * intros K HK. destruct (decide (K < N0)); [left; apply Hbelow0; lia|].
        destruct (decide (K = N0)) as [->|].
        { right. exists 0, x. split_and!; [lia|done..]. }
        destruct (Hmin K) as [?|(j & c' & ? & ? & ? & ?)]; [lia|by left|].
        right. exists (S j), c'. split_and!; [lia|done..].
  - destruct i as [|i]; simpl in *; [congruence|].
    destruct (IH cid i Hi Hid) as (N & Hkey & Hle & Hfree & Hmono & Hmin).
    exists N. split_and!; [done..| |].
    + intros [|j] c' M Hj Hc' Hidc' Hkeyj; simpl in *; [congruence|].
      eapply (Hmono j); [lia|done..].
    + intros K HK. destruct (Hmin K HK) as [?|(j & c' & ? & ? & ? & ?)]; [by left|].
      right. exists (S j), c'. split_and!; [lia|done..].
Qed.

(** ** The rows *)

Lemma setCell_row_id ret k v : row_id (setCell ret k v) = row_id ret.
Proof. unfold setCell. by case_decide. Qed.

Lemma setCell_lookup_ne ret k v k' :
  k ≠ k' → cells (setCell ret k v) !! k' = cells ret !! k'.
Proof.
  intros Hne. unfold setCell. case_decide; [done|]. by apply lookup_insert_ne.
Qed.

Lemma setCell_lookup_eq ret k v :
  k ≠ "__proto__" → cells (setCell ret k v) !! k = Some v.
Proof.
  intros Hne. unfold setCell. case_decide; [done|]. by apply lookup_insert_eq.
Qed.

Lemma setCell_lookup_proto ret k v :
  cells ret !! "__proto__" = None → cells (setCell ret k v) !! "__proto__" = None.
Proof.
  intros Hnone. unfold setCell. case_decide as Hk; [done|].
  simpl. by rewrite lookup_insert_ne.
Qed.

(** The assignments [ret[columnIds[i]] = ...] leave the identity of [ret]
    alone. *)
Lemma project_fold_id (item ret : Row) (kcs : list (string * IValue)) :
  row_id (foldl (λ ret '(k, col), setCell ret k (orNull (get col (Some item))))
                ret kcs) = row_id ret.
Proof.
  revert ret. induction kcs as [|[k col] kcs IH]; intros ret; simpl; [done|].
  by rewrite IH, setCell_row_id.
Qed.

Lemma project_fold_miss (item ret : Row) (kcs : list (string * IValue)) k :
  (∀ j kc, kcs !! j = Some kc → kc.1 ≠ k) →
  cells (foldl (λ ret '(k, col), setCell ret k (orNull (get col (Some item))))
               ret kcs) !! k = cells ret !! k.
Proof.
  revert ret. induction kcs as [|[k' col] kcs IH]; intros ret Hmiss; simpl; [done|].
  rewrite IH.
  - apply setCell_lookup_ne. apply (Hmiss 0 (k', col)). done.
  - intros j kc Hj. apply (Hmiss (S j)). done.
Qed.

(** A key assigned once holds the value of its column. *)
Lemma project_fold_once (item ret : Row) (kcs : list (string * IValue)) i k col :
  k ≠ "__proto__" →
  kcs !! i = Some (k, col) →
  (∀ j kc, j ≠ i → kcs !! j = Some kc → kc.1 ≠ k) →
  cells (foldl (λ ret '(k, col), setCell ret k (orNull (get col (Some item))))
               ret kcs) !! k = Some (orNull (get col (Some item))).
Proof.
  intros Hproto.
  revert ret i. induction kcs as [|[k' col'] kcs IH]; intros ret i Hi Honce; [done|].
  simpl. destruct i as [|i]; simpl in *.
  - injection Hi as -> ->. rewrite project_fold_miss.
    + by apply setCell_lookup_eq.
    + intros j kc Hj. apply (Honce (S j)); [lia|done].
  - apply (IH _ i); [done|].
    intros j kc Hne Hj. apply (Honce (S j)); [lia|done].
Qed.

Lemma project_id this keys item :
  getId (selection.project this keys item) = selPrefix this +:+ getId item.
Proof. unfold selection.project, getId. by rewrite project_fold_id. Qed.

Lemma project_cell this keys item i k c :
  k ≠ "__proto__" →
  keys !! i = Some k → columns this !! i = Some c →
  (∀ j, j ≠ i → keys !! j ≠ Some k) →
  cells (selection.project this keys item) !! k = Some (orNull (get c (Some item))).
Proof.
  intros Hproto Hk Hc Honce. unfold selection.project.
  apply (project_fold_once _ _ _ i); [done| |].
  - apply lookup_zip_with_Some. by exists k, c.
  - intros j [k' c'] Hne [Hj _]%lookup_zip_Some Heq. simpl in *. subst k'.
    by apply (Honce j).
Qed.

(** The names of the unnamed columns are no ids: membership in the set [ids]
    of [enumerate]. *)
Lemma elem_of_ids cols s :
  s ∈ (list_to_set (id <$> cols) : gset string) ↔ ∃ c, c ∈ cols ∧ id c = s.
Proof.
  rewrite elem_of_list_to_set, list_elem_of_fmap. naive_solver.
Qed.

(** The key of an unnamed column is the key of no other column. *)
Lemma columnIds_unnamed_once cols i c N :
  cols !! i = Some c → id c = "" →
  columnIds cols !! i = Some (column_name N) →
  ∀ j, j ≠ i → columnIds cols !! j ≠ Some (column_name N).
Proof.
  intros Hi Hid Hkey j Hne Hkeyj. unfold columnIds in *.
  set (ids := list_to_set (id <$> cols) : gset string) in *.
  destruct (columnIds_from_unnamed ids 0 cols i c Hi Hid)
    as (N' & Hkey' & _ & Hfree & Hmono & _).
  assert (N' = N) as -> by (apply column_name_inj; congruence).
  destruct (cols !! j) as [c'|] eqn:Hj.
  - destruct (decide (id c' = "")) as [Hid'|Hid'].
    + destruct (columnIds_from_unnamed ids 0 cols j c' Hj Hid')
        as (M & HkeyM & _ & _ & Hmono' & _).
      assert (M = N) as -> by (apply column_name_inj; congruence).
      destruct (decide (j < i)).
      * assert (0 ≤ N < N) by (eapply (Hmono j); [lia|done..]). lia.
      * assert (0 ≤ N < N) by (eapply (Hmono' i); [lia|done..]). lia.
    + rewrite (columnIds_from_explicit ids 0 cols j c' Hj Hid') in Hkeyj.
      apply Hfree. apply elem_of_ids. exists c'. split; [|congruence].
      by eapply list_elem_of_lookup_2.
  - apply lookup_ge_None in Hj.
    assert (j < length (columnIds_from ids 0 cols)) by by eapply lookup_lt_Some.
    rewrite columnIds_from_length in *. lia.
Qed.

(** C8. The output keys of [enumerate]. For columns with ids ["a"], [""],
    [""] the keys are ["a"], ["column0"], ["column1"], and every row holds
    the three column values under them. In general a named column keeps its
    id as key, and an unnamed column gets ["column" + N] where [N] is the
    smallest number whose name is neither an id of the selection nor the key
    given to an unnamed column before it; that key is the key of no other
    column, and every row holds the value of the column under it. *)
Theorem enumerate_output_keys this :
  (∀ c0 c1 c2,
     columns this = [c0; c1; c2] → id c0 = "a" → id c1 = "" → id c2 = "" →
     columnIds (columns this) = ["a"; "column0"; "column1"] ∧
     selection.enumerate this =
       (λ item,
          {| row_id := selPrefix this +:+ getId item;
             cells := <["column1" := orNull (get c2 (Some item))]>
                        (<["column0" := orNull (get c1 (Some item))]>
                           (<["a" := orNull (get c0 (Some item))]> ∅)) |})
         <$> i_enumerate (base this)) ∧
  length (columnIds (columns this)) = length (columns this) ∧
  (∀ i c, columns this !! i = Some c → id c ≠ "" →
     columnIds (columns this) !! i = Some (id c)) ∧
  (∀ i c, columns this !! i = Some c → id c = "" →
     ∃ N,
       columnIds (columns this) !! i = Some (column_name N) ∧
       (∀ c', c' ∈ columns this → id c' ≠ column_name N) ∧
       (∀ j, j ≠ i → columnIds (columns this) !! j ≠ Some (column_name N)) ∧
       (∀ K, K < N →
          (∃ c', c' ∈ columns this ∧ id c' = column_name K) ∨
          (∃ j c', j < i ∧ columns this !! j = Some c' ∧ id c' = "" ∧
                   columnIds (columns this) !! j = Some (column_name K))) ∧
       (∀ item,
          cells (selection.project this (columnIds (columns this)) item)
            !! column_name N = Some (orNull (get c (Some item))))).
Proof.
  split_and!.
  - intros c0 c1 c2 Hcols H0 H1 H2.
    assert (columnIds (columns this) = ["a"; "column0"; "column1"]) as Hkeys.
    { rewrite Hcols. unfold columnIds. simpl. rewrite H0, H1, H2. simpl.
      rewrite next_name_free by (by vm_compute). simpl.
      by rewrite next_name_free by (by vm_compute). }
    split; [done|].
    unfold selection.enumerate, selection.project. rewrite Hkeys, Hcols. done.
  - apply columnIds_from_length.
  - intros i c. apply columnIds_from_explicit.
  - intros i c Hi Hid.
    destruct (columnIds_from_unnamed (list_to_set (id <$> columns this)) 0
                (columns this) i c Hi Hid) as (N & Hkey & _ & Hfree & _ & Hmin).
    fold (columnIds (columns this)) in Hkey, Hmin.
    pose proof (columnIds_unnamed_once _ _ _ _ Hi Hid Hkey) as Honce.
    exists N. split_and!; [done| |done| |].
    + intros c' Hc' Heq. apply Hfree, elem_of_ids. by exists c'.
    + intros K HK. destruct (Hmin K) as [Hin|?]; [lia| |by right].
      left. by apply elem_of_ids.
    + intros item. apply (project_cell _ _ _ i); [|done..].
      apply column_name_not_proto.
Qed.

End Projection.

(** * Properties of construction *)

Section Construction.
Context {ext : Externals}.
Implicit Types (this : Selection) (on src : _ISelection) (items : list SelectItem).

Lemma String_app_assoc (s1 s2 s3 : string) :
  (s1 +:+ s2) +:+ s3 = s1 +:+ (s2 +:+ s3).
Proof.
  induction s1 as [|a s1 IH]; [done|].
  change (String a ((s1 +:+ s2) +:+ s3) = String a (s1 +:+ (s2 +:+ s3))).
  by rewrite IH.
Qed.

Lemma String_length_app (s1 s2 : string) :
  String.length (s1 +:+ s2) = String.length s1 + String.length s2.
Proof.
  induction s1 as [|a s1 IH]; [done|].
  change (S (String.length (s1 +:+ s2)) = S (String.length s1 + String.length s2)).
  by rewrite IH.
Qed.

(** Two strings that agree once the same string is put behind them agree. *)
Lemma String_app_inv_tail (s1 s2 x : string) : s1 +:+ x = s2 +:+ x → s1 = s2.
Proof.
  revert s2. induction s1 as [|a s1 IH]; intros [|b s2] Heq; [done| | |].
  - change (x = String b (s2 +:+ x)) in Heq.
    apply (f_equal String.length) in Heq.
    cbn [String.length] in Heq. rewrite String_length_app in Heq. lia.
  - change (String a (s1 +:+ x) = x) in Heq.
    apply (f_equal String.length) in Heq.
    cbn [String.length] in Heq. rewrite String_length_app in Heq. lia.
  - change (String a (s1 +:+ x) = String b (s2 +:+ x)) in Heq.
    injection Heq as -> Heq. f_equal. by apply IH.
Qed.

(** The cells of the row built for an upstream row come from the columns
    alone: the prefix of the Selection goes into the identity only. *)
Lemma project_fold_cells (item ret ret' : Row) (kcs : list (string * IValue)) :
  cells ret = cells ret' →
  cells (foldl (λ ret '(k, col), setCell ret k (orNull (get col (Some item))))
               ret kcs) =
  cells (foldl (λ ret '(k, col), setCell ret k (orNull (get col (Some item))))
               ret' kcs).
Proof.
  revert ret ret'. induction kcs as [|[k col] kcs IH]; intros ret ret' Heq; [done|].
  simpl. apply IH. unfold setCell. case_decide; simpl; congruence.
Qed.

Lemma project_cells_prefix this this' keys item :
  columns this = columns this' →
  cells (selection.project this keys item) =
  cells (selection.project this' keys item).
Proof.
  intros Hcols. unfold selection.project. rewrite Hcols.
  by apply project_fold_cells.
Qed.

(** The constructor over an explicit list: on success the counter has gone up
    by one and the Selection carries the prefix made from its old value; on
    failure the counter is as it was. *)
Lemma constructor_array on items selCnt :
  match selection.constructor on (WArray items) selCnt with
  | (Ok s, selCnt') =>
      selCnt' = S selCnt ∧ items ≠ [] ∧
      ∃ cols byId,
        selection.addColumns on items ([], ∅) = Ok (cols, byId) ∧
        s = {| base := on; selPrefix := "s" +:+ pretty selCnt;
               columns := cols; columnsById := byId |}
  | (Throw e, selCnt') => selCnt' = selCnt
  end.
Proof.
  unfold selection.constructor. destruct items as [|s rest]; [done|].
  destruct (selection.addColumns on (s :: rest) ([], ∅)) as [[cols byId]|e]; [|done].
  split_and!; [done..|]. by exists cols, byId.
Qed.

Lemma buildSelection_columns on items selCnt r selCnt' :
  selection.buildSelection on (Columns items) selCnt = (Ok r, selCnt') →
  selCnt' = S selCnt ∧
  ∃ s, r = selection.as_ISelection s ∧ base s = on ∧
       selPrefix s = "s" +:+ pretty selCnt.
Proof.
  unfold selection.buildSelection.
  pose proof (constructor_array on items selCnt) as Hnew.
  destruct (selection.constructor on (WArray items) selCnt) as [[s|e] n]; [|done].
  destruct Hnew as (-> & _ & cols & byId & _ & ->).
  intros [= <- <-]. split; [done|]. by eexists.
Qed.

(** The identities of the rows a Selection yields. *)
Lemma enumerate_ids this :
  getId <$> selection.enumerate this =
  (λ item, selPrefix this +:+ getId item) <$> i_enumerate (base this).
Proof.
  unfold selection.enumerate. rewrite <- list_fmap_compose.
  apply list_fmap_ext. intros i item _. apply project_id.
Qed.

(** C6. In a chain of nested Selections over explicit column lists, made
    from the counter value [selCnt], the rows of the outermost Selection
    carry, in order, the identities of the source rows, each behind the
    prefixes of all layers, outermost first; source rows with different
    identities give rows with different identities, at any depth. *)
Theorem nested_selection_identity src (layers : list (list SelectItem))
    (selCnt : nat) (r : _ISelection) (selCnt' : nat) :
  nest src layers selCnt = (Ok r, selCnt') →
  selCnt' = selCnt + length layers ∧
  getId <$> i_enumerate r =
    (λ item, chain_prefix selCnt (length layers) +:+ getId item)
      <$> i_enumerate src ∧
  (∀ x y : Row, getId x ≠ getId y →
     chain_prefix selCnt (length layers) +:+ getId x ≠
     chain_prefix selCnt (length layers) +:+ getId y) ∧
  (NoDup (getId <$> i_enumerate src) → NoDup (getId <$> i_enumerate r)).
Proof.
  intros Hnest.
  assert (selCnt' = selCnt + length layers ∧
          getId <$> i_enumerate r =
            (λ item, chain_prefix selCnt (length layers) +:+ getId item)
              <$> i_enumerate src) as [Hcnt Hids].
  { revert src selCnt Hnest.
    induction layers as [|items outer IH]; intros src selCnt Hnest;
      cbn [nest length chain_prefix] in *.
    - injection Hnest as <- <-. split; [lia|done].
    - destruct (selection.buildSelection src (Columns items) selCnt)
        as [[inner|e] n] eqn:Hsel; [|done].
      apply buildSelection_columns in Hsel as (-> & s & -> & <- & Hprefix).
      apply IH in Hnest as [-> ->]. split; [lia|].
      change (i_enumerate (selection.as_ISelection s)) with (selection.enumerate s).
      unfold selection.enumerate. rewrite <- list_fmap_compose.
      apply list_fmap_ext. intros i item _. simpl.
      rewrite project_id, Hprefix. symmetry. apply String_app_assoc. }
  split_and!; [done..| |].
  - intros x y Hxy Heq. by apply (inj _) in Heq.
  - intros Hnodup. rewrite Hids.
    rewrite (list_fmap_compose getId
               (String.append (chain_prefix selCnt (length layers)))).
    by apply (NoDup_fmap_2 _).
Qed.

(** An empty explicit column list is refused with [QueryError], and the
    counter stays as it was. *)
Theorem select_empty_list this on (selCnt : nat) :
  selection.constructor on (WArray []) selCnt =
    (Throw (QueryError "Invalid selection"), selCnt) ∧
  selection.select this (Columns []) selCnt =
    (Throw (QueryError "Invalid selection"), selCnt).
Proof. done. Qed.

(** C9, as the code has it. Construction reads and advances the counter
    [selCnt]: [select] over an explicit column list either fails, leaving
    the counter as it was, or returns a Selection over the receiver whose
    columns and lookup come from the receiver and the list alone and whose
    prefix is ["s" + selCnt], with the counter one higher; [select('*')]
    returns the receiver and leaves the counter alone; the prefixes made
    from two different values of the counter differ; and two constructions
    over the same receiver with the same list, made at different values of
    the counter, yield one row for each row of the receiver, in order, and
    the two rows built for the same row of the receiver have the same cells
    and different identities, each the prefix of its Selection before the
    identity of the receiver's row. *)
Theorem select_reads_and_advances_counter this items (selCnt : nat) :
  selection.select this Star selCnt = (Ok (selection.as_ISelection this), selCnt) ∧
  selection.select this (Columns items) selCnt =
    match items, selection.addColumns (selection.as_ISelection this) items ([], ∅) with
    | [], _ => (Throw (QueryError "Invalid selection"), selCnt)
    | _, Throw e => (Throw e, selCnt)
    | _, Ok (cols, byId) =>
        (Ok (selection.as_ISelection
               {| base := selection.as_ISelection this;
                  selPrefix := "s" +:+ pretty selCnt;
                  columns := cols; columnsById := byId |}),
         S selCnt)
    end ∧
  (∀ n m : nat, n ≠ m → "s" +:+ pretty n ≠ "s" +:+ pretty m) ∧
  ∀ (n m : nat) r1 n1 r2 m1,
    n ≠ m →
    selection.select this (Columns items) n = (Ok r1, n1) →
    selection.select this (Columns items) m = (Ok r2, m1) →
    length (i_enumerate r1) = length (selection.enumerate this) ∧
    length (i_enumerate r2) = length (selection.enumerate this) ∧
    ∀ i up,
      selection.enumerate this !! i = Some up →
      ∃ row1 row2,
        i_enumerate r1 !! i = Some row1 ∧
        i_enumerate r2 !! i = Some row2 ∧
        getId row1 = ("s" +:+ pretty n) +:+ getId up ∧
        getId row2 = ("s" +:+ pretty m) +:+ getId up ∧
        cells row1 = cells row2 ∧
        getId row1 ≠ getId row2.
Proof.
  assert (∀ n m : nat, n ≠ m → "s" +:+ pretty n ≠ "s" +:+ pretty m) as Hprefix.
  { intros n m Hne Heq. apply Hne.
    apply (inj (String.append "s")) in Heq. by apply (inj pretty) in Heq. }
  split_and!; [done| |done|].
  - unfold selection.select, selection.buildSelection, selection.constructor.
    destruct items as [|s rest]; [done|].
    by destruct (selection.addColumns _ (s :: rest) _) as [[cols byId]|e].
  - intros n m r1 n1 r2 m1 Hne.
    unfold selection.select, selection.buildSelection, selection.constructor.
    destruct items as [|s rest]; [done|].
    destruct (selection.addColumns _ (s :: rest) _) as [[cols byId]|e]; [|done].
    simpl. intros [= <- _] [= <- _]. simpl.
    unfold selection.enumerate at 1 3. simpl.
    rewrite !length_fmap. split_and!; [done..|].
    intros i up Hup. do 2 eexists.
    split_and!.
    + unfold selection.enumerate at 1. simpl.
      rewrite list_lookup_fmap, Hup. done.
    + unfold selection.enumerate at 1. simpl.
      rewrite list_lookup_fmap, Hup. done.
    + by rewrite project_id.
    + by rewrite project_id.
    + by apply project_cells_prefix.
    + rewrite !project_id. simpl. intros Heq%String_app_inv_tail.
      by apply (Hprefix n m).
Qed.

End Construction.

(** * The constructor and the lookup by id *)

(** The column that one [{ expr, as }] item of an explicit list stands for:
    [buildValue(base, s.expr)], renamed by [setId(s.as)] when [s.as] is
    truthy. *)
Definition compileItem `{Externals} (base : _ISelection) (s : SelectItem)
  : Result IValue :=
  let! col := buildValue base (expr s) in
  Ok (match as_ s with
      | Some a => if decide (a = "") then col else IValue_setId col a
      | None => col
      end).

(** The items of a list compiled one after the other, up to the first one
    that throws. *)
Fixpoint compileItems `{Externals} (base : _ISelection) (items : list SelectItem)
  : Result (list IValue) :=
  match items with
  | [] => Ok []
  | s :: rest =>
      let! col := compileItem base s in
      let! cols := compileItems base rest in
      Ok (col :: cols)
  end.

(** The last column of a list that has the id [k]. *)
Definition last_with_id (k : string) (cols : list IValue) : option IValue :=
  last (filter (λ c, id c = k) cols).

(** The lookup [columnsById] agrees with the column list: under each id it
    holds the last column of that id, and nothing under other keys. *)
Definition lookup_consistent (s : Selection) : Prop :=
  ∀ k, columnsById s !! k = last_with_id k (columns s).

Section Lookup.
Context {ext : Externals}.
Implicit Types (this : Selection) (on : _ISelection) (items : list SelectItem)
  (cols : list IValue) (byId : gmap string IValue).

(** The assignments [this.columnsById[col.id] = col], column after column. *)
Lemma lookup_after_assignments cols byId k :
  foldl (λ m c, <[id c := c]> m) byId cols !! k =
  match last_with_id k cols with
  | Some c => Some c
  | None => byId !! k
  end.
Proof.
  unfold last_with_id. revert byId.
  induction cols as [|c cols IH] using rev_ind; intros byId; [done|].
  rewrite foldl_app, filter_app. simpl. rewrite filter_cons, filter_nil.
  destruct (decide (id c = k)) as [<-|Hne].
  - rewrite last_snoc. apply lookup_insert_eq.
  - rewrite app_nil_r, lookup_insert_ne by done. apply IH.
Qed.

(** The loop of the constructor over an explicit list is a map that stops at
    the first item that throws, followed by the assignments to the lookup. *)
Lemma addColumns_compileItems on items cols byId :
  selection.addColumns on items (cols, byId) =
  let! new := compileItems on items in
  Ok (cols ++ new, foldl (λ m c, <[id c := c]> m) byId new).
Proof.
  revert cols byId. induction items as [|s rest IH]; intros cols byId; simpl.
  - by rewrite app_nil_r.
  - unfold compileItem. destruct (buildValue on (expr s)) as [col|e]; simpl; [|done].
    rewrite IH. simpl. destruct (compileItems on rest) as [new|e]; simpl; [|done].
    by rewrite <- app_assoc.
Qed.

(** The loop of the constructor over the fields of a schema. *)
Lemma addFields_map (what : list SchemaField) cols byId :
  selection.addFields what (cols, byId) =
  let new := (λ col, Evaluator (field_type col) (field_id col) (field_id col)
                       (field_id col)
                       (λ raw, default SUndefined (raw ≫= λ r, cells r !! field_id col)))
             <$> what in
  (cols ++ new, foldl (λ m c, <[id c := c]> m) byId new).
Proof.
  revert cols byId. induction what as [|col rest IH]; intros cols byId; simpl.
  - by rewrite app_nil_r.
  - rewrite IH. simpl. by rewrite <- app_assoc.
Qed.

(** Whatever the constructor builds has a lookup that agrees with its
    column list. *)
Lemma constructor_lookup_consistent on (what : What) (selCnt : nat) s selCnt' :
  selection.constructor on what selCnt = (Ok s, selCnt') → lookup_consistent s.
Proof.
  unfold selection.constructor. destruct what as [items|schema].
  - destruct items as [|i rest]; [done|].
    rewrite addColumns_compileItems.
    destruct (compileItems on (i :: rest)) as [new|e]; simpl; [|done].
    intros [= <- _] k. simpl. rewrite lookup_after_assignments, lookup_empty.
    by destruct (last_with_id k new).
  - rewrite addFields_map. simpl. intros [= <- _] k. simpl.
    rewrite lookup_after_assignments, lookup_empty. by destruct (last_with_id k _).
Qed.

(** [getColumn] on a Selection whose lookup agrees with its columns. *)
Lemma getColumn_last_with_id s k :
  lookup_consistent s →
  selection.getColumn s k =
  match last_with_id k (columns s) with
  | Some c => Ok c
  | None => Throw (ColumnNotFound k)
  end.
Proof. intros Hcons. unfold selection.getColumn. by rewrite Hcons. Qed.

(** The last element of a list that satisfies a decidable test. *)
Lemma last_filter_Some {A} (P : A → Prop) `{!∀ x, Decision (P x)} (l : list A) x :
  last (filter P l) = Some x ↔
  ∃ i, l !! i = Some x ∧ P x ∧ ∀ j y, i < j → l !! j = Some y → ¬ P y.
Proof.
  induction l as [|a l IH] using rev_ind.
  - split; [done|]. by intros (i & Hi & _).
  - rewrite filter_app, filter_cons, filter_nil. destruct (decide (P a)) as [Ha|Ha].
    + rewrite last_snoc. split.
      * intros [= ->]. exists (length l). split_and!; [|done|].
        -- by rewrite lookup_app_r, Nat.sub_diag by lia.
        -- intros j y Hj Hy. apply lookup_lt_Some in Hy.
           rewrite length_app in Hy. simpl in Hy. lia.
      * intros (i & Hi & Hx & Hlast).
        destruct (decide (i = length l)) as [->|Hne].
        -- rewrite lookup_app_r, Nat.sub_diag in Hi by lia. by injection Hi as ->.
        -- assert (i < length l).
           { apply lookup_lt_Some in Hi. rewrite length_app in Hi. simpl in Hi. lia. }
           destruct (Hlast (length l) a); [lia| |done].
           by rewrite lookup_app_r, Nat.sub_diag by lia.
    + rewrite app_nil_r, IH. split.
      * intros (i & Hi & Hx & Hlast). exists i. split_and!; [|done|].
        -- by apply lookup_app_l_Some.
        -- intros j y Hj Hy. destruct (decide (j < length l)) as [Hlt|Hge].
           ++ rewrite lookup_app_l in Hy by done. by eapply Hlast.
           ++ rewrite lookup_app_r in Hy by lia.
              destruct (j - length l) as [|d]; [|done]. by injection Hy as <-.
      * intros (i & Hi & Hx & Hlast).
        assert (i < length l).
        { destruct (decide (i < length l)); [done|].
          rewrite lookup_app_r in Hi by lia.
          destruct (i - length l) as [|d]; [|done]. injection Hi as ->. done. }
        exists i. split_and!; [|done|].
        -- by rewrite lookup_app_l in Hi.
        -- intros j y Hj Hy. eapply (Hlast j); [done|]. by apply lookup_app_l_Some.
Qed.

Lemma last_filter_None {A} (P : A → Prop) `{!∀ x, Decision (P x)} (l : list A) :
  last (filter P l) = None ↔ ∀ x, x ∈ l → ¬ P x.
Proof.
  rewrite last_None. split.
  - intros Hnil x Hx HP.
    assert (x ∈ filter P l) as Hin by (by apply list_elem_of_filter).
    rewrite Hnil in Hin. by apply elem_of_nil in Hin.
  - intros Hnone. destruct (filter P l) as [|x l'] eqn:Hf; [done|].
    assert (x ∈ filter P l) as [HP Hx]%list_elem_of_filter by (rewrite Hf; left).
    by destruct (Hnone x).
Qed.

(** X5. [getColumn] on a Selection that the constructor built, from an
    explicit list or from a schema. The last column of the list that has a
    given id is what is returned under this id, so the id of any column of
    the Selection is found (a later column hides an earlier one of the same
    id). When no column has the id ["__proto__"], then for every name [k]
    that is not inherited from [Object.prototype]: what is returned under
    [k] is the last column that has the id [k], and [getColumn] throws
    [ColumnNotFound] exactly when no column has the id [k]. *)
Theorem getColumn_after_constructor on (what : What) (selCnt : nat) s selCnt' :
  selection.constructor on what selCnt = (Ok s, selCnt') →
  (∀ i c, columns s !! i = Some c →
     (∀ j c', i < j → columns s !! j = Some c' → id c' ≠ id c) →
     selection.getColumn s (id c) = Ok c) ∧
  (∀ c, c ∈ columns s →
     ∃ c', selection.getColumn s (id c) = Ok c' ∧ id c' = id c ∧ c' ∈ columns s) ∧
  ((∀ c, c ∈ columns s → id c ≠ "__proto__") →
   ∀ k, k ∉ Object_prototype_names →
     (∀ c, selection.getColumn s k = Ok c ↔
        ∃ i, columns s !! i = Some c ∧ id c = k ∧
             ∀ j c', i < j → columns s !! j = Some c' → id c' ≠ k) ∧
     (selection.getColumn s k = Throw (ColumnNotFound k) ↔
        ∀ c, c ∈ columns s → id c ≠ k)).
Proof.
  intros Hcons%constructor_lookup_consistent.
  assert (∀ k c, selection.getColumn s k = Ok c ↔ last_with_id k (columns s) = Some c)
    as Hfound.
  { intros k c. rewrite getColumn_last_with_id by done.
    destruct (last_with_id k (columns s)); naive_solver. }
  unfold last_with_id in Hfound.
  assert (∀ k, selection.getColumn s k = Throw (ColumnNotFound k) ↔
               last_with_id k (columns s) = None) as Hmissing.
  { intros k. rewrite getColumn_last_with_id by done.
    destruct (last_with_id k (columns s)); naive_solver. }
  unfold last_with_id in Hmissing.
  split_and!.
  - intros i c Hi Hlast. apply Hfound.
    apply (last_filter_Some (λ c', id c' = id c)). by exists i.
  - intros c Hc.
    destruct (last_with_id (id c) (columns s)) as [c'|] eqn:Hlast.
    + exists c'. split; [by apply Hfound|].
      unfold last_with_id in Hlast.
      apply (proj1 (last_filter_Some _ _ _)) in Hlast as (i & Hi & Hid & _).
      split; [done|]. by eapply list_elem_of_lookup_2.
    + unfold last_with_id in Hlast.
      by destruct (proj1 (last_filter_None _ _) Hlast c).
  - intros _ k _. split.
    + intros c. rewrite Hfound. apply (last_filter_Some (λ c', id c' = k)).
    + rewrite Hmissing. apply (last_filter_None (λ c', id c' = k)).
Qed.

(** X6. The keys that [enumerate] makes up for unnamed columns are no
    column ids: on a Selection that the constructor built, [getColumn] of
    such a key throws [ColumnNotFound], although every row carries a value
    under it. *)
Theorem getColumn_of_synthesized_key on (what : What) (selCnt : nat) s selCnt' :
  selection.constructor on what selCnt = (Ok s, selCnt') →
  ∀ i c key,
    columns s !! i = Some c → id c = "" →
    columnIds (columns s) !! i = Some key →
    selection.getColumn s key = Throw (ColumnNotFound key) ∧
    ∀ item, is_Some (cells (selection.project s (columnIds (columns s)) item) !! key).
Proof.
  intros Hcons i c key Hi Hid Hkey.
  destruct (columnIds_from_unnamed (list_to_set (id <$> columns s)) 0
              (columns s) i c Hi Hid) as (N & HkeyN & _ & Hfree & _).
  fold (columnIds (columns s)) in HkeyN.
  assert (key = column_name N) as -> by congruence.
  split.
  - rewrite getColumn_last_with_id by by eapply constructor_lookup_consistent.
    assert (last_with_id (column_name N) (columns s) = None) as ->; [|done].
    unfold last_with_id. apply (last_filter_None (λ c', id c' = column_name N)).
    intros c' Hc' Heq. apply Hfree, elem_of_ids. by exists c'.
  - intros item.
    rewrite (project_cell s _ item i (column_name N) c); [done| |done..|].
    + apply column_name_not_proto.
    + by apply (columnIds_unnamed_once _ i c).
Qed.

(** All items compile: the columns are the compiled items, in order. *)
Lemma compileItems_Ok on items cols :
  compileItems on items = Ok cols ↔
  Forall2 (λ it c, compileItem on it = Ok c) items cols.
Proof.
  revert cols. induction items as [|it rest IH]; intros cols; simpl.
  - split; [intros [= <-]; constructor|]. by intros ->%Forall2_nil_inv_l.
  - destruct (compileItem on it) as [c|e] eqn:Hit; simpl.
    + destruct (compileItems on rest) as [cs|e] eqn:Hrest; simpl.
      * split.
        -- intros [= <-]. constructor; [done|]. by apply IH.
        -- intros (c' & cs' & Hc' & Hcs' & ->)%Forall2_cons_inv_l.
           apply IH in Hcs'. congruence.
      * split; [done|].
        intros (c' & cs' & _ & Hcs' & _)%Forall2_cons_inv_l.
        by apply IH in Hcs'.
    + split; [done|].
      intros (c' & cs' & Hc' & _)%Forall2_cons_inv_l. congruence.
Qed.

(** One item throws and the items before it compile: the loop throws what
    this item throws. *)
Lemma compileItems_Throw on items i it e :
  items !! i = Some it → compileItem on it = Throw e →
  (∀ j it', j < i → items !! j = Some it' → ∃ c, compileItem on it' = Ok c) →
  compileItems on items = Throw e.
Proof.
  revert i. induction items as [|it0 rest IH]; intros i Hi He Hbefore; [done|].
  simpl. destruct i as [|i]; simpl in Hi.
  - injection Hi as ->. by rewrite He.
  - destruct (Hbefore 0 it0) as [c ->]; [lia|done|]. simpl.
    rewrite (IH i); [done..|].
    intros j it' Hj Hit'. apply (Hbefore (S j)); [lia|done].
Qed.

(** X4. The constructor over an explicit list. An empty list throws
    [QueryError]. A list whose items all compile gives a Selection over the
    base whose columns are the compiled items in the order of the list, with
    the prefix ["s" + selCnt], and the counter goes up by one. When an item
    throws and the items before it compile, the constructor throws the same
    error and the counter stays as it was. *)
Theorem constructor_explicit_list on items (selCnt : nat) :
  (items = [] →
     selection.constructor on (WArray items) selCnt =
     (Throw (QueryError "Invalid selection"), selCnt)) ∧
  (∀ cols, items ≠ [] →
     Forall2 (λ it c, compileItem on it = Ok c) items cols →
     ∃ s, selection.constructor on (WArray items) selCnt = (Ok s, S selCnt) ∧
          base s = on ∧ selPrefix s = "s" +:+ pretty selCnt ∧ columns s = cols) ∧
  (∀ i it e,
     items !! i = Some it → compileItem on it = Throw e →
     (∀ j it', j < i → items !! j = Some it' → ∃ c, compileItem on it' = Ok c) →
     selection.constructor on (WArray items) selCnt = (Throw e, selCnt)).
Proof.
  split_and!.
  - by intros ->.
  - intros cols Hne Hall%compileItems_Ok. unfold selection.constructor.
    destruct items as [|it rest]; [done|].
    rewrite addColumns_compileItems, Hall. simpl. by eexists.
  - intros i it e Hi He Hbefore. unfold selection.constructor.
    destruct items as [|it0 rest]; [done|].
    by rewrite addColumns_compileItems, (compileItems_Throw _ _ i it e).
Qed.

(** X7. The constructor over a schema never throws and leaves the counter
    alone. The Selection has one column per field, made by [Evaluator] from
    the field's type and id, and an empty prefix: its rows carry the
    identities of the rows of the base, unchanged and in order. *)
Theorem constructor_schema on (schema : Schema) (selCnt : nat) :
  ∃ s, selection.constructor on (WSchema schema) selCnt = (Ok s, selCnt) ∧
       base s = on ∧ selPrefix s = "" ∧
       columns s =
         (λ col, Evaluator (field_type col) (field_id col) (field_id col)
                   (field_id col)
                   (λ raw, default SUndefined (raw ≫= λ r, cells r !! field_id col)))
         <$> fields schema ∧
       getId <$> selection.enumerate s = getId <$> i_enumerate on.
Proof.
  unfold selection.constructor. rewrite addFields_map. simpl.
  eexists. split_and!; [done..|].
  rewrite enumerate_ids. simpl. by apply list_fmap_ext.
Qed.

End Lookup.

(** * The rows of a Selection *)

Section Rows.
Implicit Types (this : Selection) (cols : list IValue) (keys : list string)
  (item ret : Row).

(** After the assignments [ret[columnIds[i]] = ...] the value under a key is
    that of the last column assigned under it. *)
Lemma project_fold_last item ret (kcs : list (string * IValue)) k :
  k ≠ "__proto__" →
  cells (foldl (λ ret '(k, col), setCell ret k (orNull (get col (Some item))))
               ret kcs) !! k =
  match last (filter (λ kc, kc.1 = k) kcs) with
  | Some kc => Some (orNull (get kc.2 (Some item)))
  | None => cells ret !! k
  end.
Proof.
  intros Hproto.
  revert ret. induction kcs as [|[k' c] kcs IH] using rev_ind; intros ret; [done|].
  rewrite foldl_app, filter_app, filter_cons, filter_nil. simpl.
  destruct (decide (k' = k)) as [->|Hne].
  - rewrite last_snoc. simpl. by apply setCell_lookup_eq.
  - rewrite app_nil_r, setCell_lookup_ne by done. apply IH.
Qed.

(** The assignments make no own property ["__proto__"]. *)
Lemma project_fold_proto item ret (kcs : list (string * IValue)) :
  cells ret !! "__proto__" = None →
  cells (foldl (λ ret '(k, col), setCell ret k (orNull (get col (Some item))))
               ret kcs) !! "__proto__" = None.
Proof.
  revert ret. induction kcs as [|[k c] kcs IH]; intros ret Hnone; [done|].
  simpl. by apply IH, setCell_lookup_proto.
Qed.

(** The cell of a row under a key, by the position of the last column that
    has this key. *)
Lemma project_lookup this keys item k v :
  length keys = length (columns this) →
  cells (selection.project this keys item) !! k = Some v ↔
  k ≠ "__proto__" ∧
  ∃ j c, keys !! j = Some k ∧ columns this !! j = Some c ∧
         v = orNull (get c (Some item)) ∧
         ∀ j', j < j' → keys !! j' ≠ Some k.
Proof.
  intros Hlen. unfold selection.project.
  destruct (decide (k = "__proto__")) as [->|Hproto].
  { rewrite project_fold_proto by done. split; [done|]. by intros [? _]. }
  rewrite project_fold_last by done. simpl.
  rewrite lookup_empty.
  destruct (last (filter (λ kc, kc.1 = k) (zip keys (columns this))))
    as [[k' c]|] eqn:Hlast.
  - apply (proj1 (last_filter_Some _ _ _)) in Hlast as (j & Hj & Hk & Hafter).
    simpl in Hk. subst k'. apply lookup_zip_Some in Hj as [Hkey Hcol].
    split.
    + intros [= <-]. split; [done|]. exists j, c. split_and!; [done..|].
      intros j' Hj' Hkey'.
      destruct (lookup_lt_is_Some_2 (columns this) j') as [c' Hc'].
      { apply lookup_lt_Some in Hkey'. lia. }
      apply (Hafter j' (k, c')); [done| |done]. by apply lookup_zip_Some.
    + intros (_ & j0 & c0 & Hkey0 & Hcol0 & -> & Hafter0).
      destruct (decide (j = j0)) as [->|Hne]; [simpl; congruence|].
      destruct (decide (j < j0)).
      * destruct (Hafter j0 (k, c0)); [done| |done]. by apply lookup_zip_Some.
      * destruct (Hafter0 j); [lia|done].
  - split; [done|]. intros (_ & j & c & Hkey & Hcol & _).
    apply (proj1 (last_filter_None _ _)) with (x := (k, c)) in Hlast; [done| ].
    apply list_elem_of_lookup. exists j. by apply lookup_zip_Some.
Qed.

(** The keys of a row are the output keys of the columns, ["__proto__"]
    left out. *)
Lemma project_dom this item :
  dom (cells (selection.project this (columnIds (columns this)) item)) =
  list_to_set (columnIds (columns this)) ∖ {["__proto__"]}.
Proof.
  assert (length (columnIds (columns this)) = length (columns this)) as Hlen
    by apply columnIds_from_length.
  apply set_eq. intros k.
  rewrite elem_of_dom, elem_of_difference, elem_of_list_to_set, elem_of_singleton.
  split.
  - intros [v (Hproto & j & c & Hkey & _)%project_lookup]; [|done].
    split; [|done]. by eapply list_elem_of_lookup_2.
  - intros [Hk Hproto].
    destruct (last (filter (λ kc, kc.1 = k)
                      (zip (columnIds (columns this)) (columns this))))
      as [kc|] eqn:Hlast.
    + exists (orNull (get kc.2 (Some item))). unfold selection.project.
      by rewrite project_fold_last, Hlast.
    + apply list_elem_of_lookup in Hk as [j Hj].
      destruct (lookup_lt_is_Some_2 (columns this) j) as [c Hc].
      { apply lookup_lt_Some in Hj. lia. }
      apply (proj1 (last_filter_None _ _)) with (x := (k, c)) in Hlast; [done|].
      apply list_elem_of_lookup. exists j. by apply lookup_zip_Some.
Qed.

(** The key ["__proto__"] is an output key only as the id of a column. *)
Lemma columnIds_proto cols :
  "__proto__" ∈ columnIds cols ↔ ∃ c, c ∈ cols ∧ id c = "__proto__".
Proof.
  assert (length (columnIds cols) = length cols) as Hlen
    by apply columnIds_from_length.
  split.
  - intros [i Hi]%list_elem_of_lookup.
    destruct (lookup_lt_is_Some_2 cols i) as [c Hc].
    { apply lookup_lt_Some in Hi. lia. }
    exists c. split; [by eapply list_elem_of_lookup_2|].
    destruct (decide (id c = "")) as [Hid|Hid].
    + destruct (columnIds_from_unnamed (list_to_set (id <$> cols)) 0
                  cols i c Hc Hid) as (N & HkeyN & _).
      fold (columnIds cols) in HkeyN.
      destruct (column_name_not_proto N). congruence.
    + pose proof (columnIds_from_explicit (list_to_set (id <$> cols)) 0
                    cols i c Hc Hid) as Hkey.
      fold (columnIds cols) in Hkey. congruence.
  - intros (c & [i Hc]%list_elem_of_lookup & Hid).
    apply list_elem_of_lookup. exists i. rewrite <- Hid.
    apply columnIds_from_explicit; [done|]. by rewrite Hid.
Qed.


(** A list has as many different elements as it is long only when it has no
    duplicates. *)
Lemma size_list_to_set_NoDup (l : list string) :
  size (list_to_set l : gset string) ≤ length l ∧
  (size (list_to_set l : gset string) = length l ↔ NoDup l).
Proof.
  induction l as [|x l [IHle IHeq]].
  - rewrite list_to_set_nil, size_empty. split; [done|]. split; [constructor|done].
  - rewrite list_to_set_cons. cbn [length].
    destruct (decide (x ∈ l)) as [Hin|Hout].
    + assert ({[x]} ∪ list_to_set l = (list_to_set l : gset string)) as ->
        by set_solver.
      split; [lia|]. split; [lia|]. by intros [? _]%NoDup_cons.
    + rewrite size_union, size_singleton by set_solver.
      split; [lia|]. rewrite NoDup_cons. split; [|intros [_ ?%IHeq]; lia].
      intros Hsz. split; [done|]. apply IHeq. lia.
Qed.

(** Taking one element out of a set leaves as many elements only when the
    element was not in it. *)
Lemma size_difference_singleton (X : gset string) (x : string) :
  size (X ∖ {[x]}) ≤ size X ∧ (size (X ∖ {[x]}) = size X ↔ x ∉ X).
Proof.
  destruct (decide (x ∈ X)) as [Hin|Hout].
  - rewrite size_difference by set_solver. rewrite size_singleton.
    assert (size X ≠ 0) as Hpos.
    { intros Hz%size_empty_inv. set_solver. }
    split; [lia|]. split; [lia|done].
  - assert (X ∖ {[x]} = X) as -> by set_solver. done.
Qed.

(** X9. No column is lost in a row exactly when the output keys are
    pairwise different and no column has the id ["__proto__"]. The output
    keys are pairwise different if and only if no two named columns share an
    id; a row never has more cells than the Selection has columns, and it
    has one cell per column if and only if the output keys are pairwise
    different and none of the columns has the id ["__proto__"]. *)
Theorem enumerate_keeps_all_columns this :
  (NoDup (columnIds (columns this)) ↔
   ∀ i j c c', columns this !! i = Some c → columns this !! j = Some c' →
               id c ≠ "" → id c = id c' → i = j) ∧
  ∀ row, row ∈ selection.enumerate this →
    size (cells row) ≤ length (columns this) ∧
    (size (cells row) = length (columns this) ↔
     NoDup (columnIds (columns this)) ∧
     ∀ c, c ∈ columns this → id c ≠ "__proto__").
Proof.
  assert (length (columnIds (columns this)) = length (columns this)) as Hlen
    by apply columnIds_from_length.
  split.
  - rewrite NoDup_alt. split.
    + intros Hnodup i j c c' Hi Hj Hid Heq.
      apply (Hnodup i j (id c)).
      * by apply columnIds_from_explicit.
      * rewrite Heq. apply columnIds_from_explicit; [done|congruence].
    + intros Hnamed i j k Hi Hj.
      destruct (lookup_lt_is_Some_2 (columns this) i) as [c Hc].
      { apply lookup_lt_Some in Hi. lia. }
      destruct (lookup_lt_is_Some_2 (columns this) j) as [c' Hc'].
      { apply lookup_lt_Some in Hj. lia. }
      destruct (decide (i = j)) as [|Hne]; [done|exfalso].
      destruct (decide (id c = "")) as [Hid|Hid].
      { destruct (columnIds_from_unnamed (list_to_set (id <$> columns this)) 0
                    (columns this) i c Hc Hid) as (N & HkeyN & _).
        fold (columnIds (columns this)) in HkeyN.
        apply (columnIds_unnamed_once _ i c N Hc Hid HkeyN j); congruence. }
      destruct (decide (id c' = "")) as [Hid'|Hid'].
      { destruct (columnIds_from_unnamed (list_to_set (id <$> columns this)) 0
                    (columns this) j c' Hc' Hid') as (N & HkeyN & _).
        fold (columnIds (columns this)) in HkeyN.
        apply (columnIds_unnamed_once _ j c' N Hc' Hid' HkeyN i); congruence. }
      apply Hne, (Hnamed i j c c'); [done..|].
      pose proof (columnIds_from_explicit (list_to_set (id <$> columns this)) 0
                    _ i c Hc Hid) as Hki.
      pose proof (columnIds_from_explicit (list_to_set (id <$> columns this)) 0
                    _ j c' Hc' Hid') as Hkj.
      fold (columnIds (columns this)) in Hki, Hkj. congruence.
  - intros row Hrow. unfold selection.enumerate in Hrow.
    apply list_elem_of_fmap in Hrow as (item & -> & _).
    rewrite <- size_dom, project_dom, <- Hlen.
    destruct (size_list_to_set_NoDup (columnIds (columns this))) as [Hle Heq].
    destruct (size_difference_singleton
                (list_to_set (columnIds (columns this))) "__proto__")
      as [Hle' Heq'].
    rewrite elem_of_list_to_set, columnIds_proto in Heq'.
    split; [lia|]. split.
    + intros Hsz. split.
      * apply Heq. lia.
      * intros c Hc Hid. apply (proj1 Heq'); [lia|]. by exists c.
    + intros [Hnodup Hnone]. apply Heq in Hnodup.
      rewrite (proj2 Heq'); [done|]. intros (c & Hc & Hid). by apply (Hnone c).
Qed.

End Rows.

(** * The shape of the plans *)

(** What holds of every node of a plan made for the Selection [this]: the
    nodes that take a relation (the selection itself, Always-False,
    Brute-Force-Scan) take [this]; Equality and Inequality nodes are keyed
    on a value that carries an index; Membership and Non-Membership nodes
    are keyed on a value with a one-key index and test a constant array. *)
Fixpoint plan_over (this : Selection) (p : Plan) : Prop :=
  match p with
  | Self s | FalseFilter s | SeqScanFilter s _ => s = this
  | EqFilter v _ | NeqFilter v _ => is_Some (index v)
  | InFilter v a | NotInFilter v a => single_key_index v ∧ isConstant a = true
  | buildAndFilter l r | OrFilter l r => plan_over this l ∧ plan_over this r
  end.

Section PlanShape.
Context {ext : Externals}.
Implicit Types (this : Selection) (filter l r : Ast) (built value : IValue)
  (p : Plan).

Lemma has_index_is_Some value :
  selection.has_index value = true → is_Some (index value).
Proof. unfold selection.has_index. by destruct (index value). Qed.

Lemma buildComparison_plan_over this filter p :
  selection.buildComparison this filter = Ok p → plan_over this p.
Proof.
  unfold selection.buildComparison. destruct filter as [|kind operator l r rest]; [done|].
  destruct (buildValue _ l) as [lv|]; simpl; [|done].
  destruct (buildValue _ r) as [rv|]; simpl; [|done].
  destruct (isConstant lv && isConstant rv).
  { destruct (buildValue _ _) as [g|]; simpl; [|done].
    by destruct (truthy _); intros [= <-]. }
  assert (∀ q, (let! getter := buildValue (selection.as_ISelection this)
                                 (Node kind operator l r rest) in
                Ok (SeqScanFilter this getter)) = Ok q → plan_over this q) as Hscan.
  { intros q. destruct (buildValue _ _); simpl; [|done]. by intros [= <-]. }
  destruct (selection.is_op operator ["="; "!="; "<>"]); [|apply Hscan].
  destruct (selection.has_index lv && isConstant rv) eqn:Hl.
  { apply andb_true_iff in Hl as [Hl%has_index_is_Some _].
    by destruct (selection.is_op operator ["="]); intros [= <-]. }
  destruct (selection.has_index rv && isConstant lv) eqn:Hr; [|apply Hscan].
  apply andb_true_iff in Hr as [Hr%has_index_is_Some _].
  by destruct (selection.is_op operator ["="]); intros [= <-].
Qed.

(** X10. Every plan that [buildFilter] returns is a plan over the receiver:
    whatever the predicate, and however deep its [AND]s and [OR]s, each
    scan and each Always-False node of the plan takes the Selection that
    was asked, each Equality or Inequality node is keyed on a value that
    carries an index, and each Membership or Non-Membership node is keyed
    on a value with a one-key index and tests a constant array. *)
Theorem buildFilter_plan_over this filter p :
  selection.buildFilter this filter = Ok p → plan_over this p.
Proof.
  revert p. induction filter as [|kind operator l IHl r IHr rest]; intros p;
    rewrite buildFilter_unfold;
    (destruct (buildValue _ _) as [built|]; simpl; [|done]);
    (destruct (index built) as [i|] eqn:Hindex;
     [ destruct (expressions i) as [|key [|]]; try done;
       case_decide; [|done]; intros [= <-]; simpl; by rewrite Hindex |]);
    (destruct (isConstant built);
     [ destruct (convert _ _) as [c|]; simpl; [|done];
       by destruct (truthy _); intros [= <-] |]); [done|].
  case_decide; [|done].
  unfold selection.buildBinaryFilter, selection.buildBinaryFilter_with.
  destruct (selection.is_op operator ["="; ">"; "<"; "<="; ">="]);
    [apply (buildComparison_plan_over this (Node kind operator l r rest))|].
  destruct (selection.is_op operator ["AND"; "OR"]).
  { destruct (selection.buildFilter this l) as [lf|]; simpl; [|done].
    destruct (selection.buildFilter this r) as [rf|]; simpl; [|done].
    destruct (selection.is_op operator ["AND"]); intros [= <-]; simpl; auto. }
  destruct (selection.is_op operator ["IS"; "IS NOT"]).
  { destruct (buildValue _ r) as [rv|]; simpl; [|done].
    case_decide; [|done].
    destruct (buildValue _ l) as [lv|]; simpl; [|done].
    destruct (selection.has_index lv) eqn:Hl.
    - apply has_index_is_Some in Hl.
      by destruct (selection.is_op operator ["IS"]); intros [= <-].
    - by intros [= <-]. }
  destruct (selection.is_op operator ["IN"; "NOT IN"]).
  { destruct (buildValue _ l) as [lv|]; simpl; [|done].
    destruct (buildValue _ r) as [rv|]; simpl; [|done].
    destruct (convert _ _) as [array|]; simpl; [|done].
    destruct (isConstant array && selection.has_single_index lv) eqn:Hc.
    - apply andb_true_iff in Hc as [Hc Hs%has_single_index_spec].
      by destruct (selection.is_op operator ["IN"]); intros [= <-].
    - by intros [= <-]. }
  destruct (buildValue _ _); simpl; [|done]. by intros [= <-].
Qed.

(** A binary expression that reaches the dispatch on its operator. *)
Lemma buildFilter_binary this operator l r rest built :
  buildValue (selection.as_ISelection this)
    (Node (Some "binary_expr") operator l r rest) = Ok built →
  index built = None → isConstant built = false →
  selection.buildFilter this (Node (Some "binary_expr") operator l r rest) =
  selection.buildBinaryFilter this (Node (Some "binary_expr") operator l r rest).
Proof.
  intros Hbuilt Hindex Hconst.
  rewrite (buildFilter_dispatch _ _ _ _ _ _ built) by done.
  by rewrite decide_True.
Qed.

(** X11. [filter] gives back its receiver only when there is nothing to
    filter: the predicate is absent, or the stripped predicate compiles to a
    value without index that is constant and truthy once converted to
    boolean, or it is a comparison of two constant operands whose compiled
    form evaluates to a truthy value on the null row. The Selection given
    back is then the receiver and no other. *)
Theorem filter_returns_receiver this filter s :
  selection.filter this filter = Ok (Self s) →
  s = this ∧
  (filter = Nullish ∨
   ∃ built,
     buildValue (selection.as_ISelection this) (trimNullish filter) = Ok built ∧
     index built = None ∧
     ((isConstant built = true ∧
       ∃ c, convert built (inl DataType_bool) = Ok c ∧ truthy (get c None) = true) ∨
      (isConstant built = false ∧ truthy (get built None) = true ∧
       ∃ operator l r rest lv rv,
         trimNullish filter = Node (Some "binary_expr") operator l r rest ∧
         selection.is_op operator ["="; ">"; "<"; "<="; ">="] = true ∧
         buildValue (selection.as_ISelection this) l = Ok lv ∧
         buildValue (selection.as_ISelection this) r = Ok rv ∧
         isConstant lv = true ∧ isConstant rv = true))).
Proof.
  destruct filter as [|kind0 operator0 l0 r0 rest0]; simpl.
  { intros [= <-]. auto. }
  generalize (trimNullish (Node kind0 operator0 l0 r0 rest0)). intros f.
  rewrite buildFilter_unfold.
  destruct (buildValue _ f) as [built|] eqn:Hbuilt; simpl; [|done].
  destruct (index built) as [i|] eqn:Hindex.
  { destruct (expressions i) as [|key [|]]; try done. by case_decide. }
  destruct (isConstant built) eqn:Hconst.
  { destruct (convert _ _) as [c|] eqn:Hconv; simpl; [|done].
    destruct (truthy _) eqn:Htruthy; intros [= <-]. split; [done|]. right.
    exists built. split_and!; [done..|]. left. split; [done|]. by exists c. }
  destruct f as [|kind operator l r rest]; [done|].
  case_decide as Hkind; [subst kind|done].
  unfold selection.buildBinaryFilter, selection.buildBinaryFilter_with.
  destruct (selection.is_op operator ["="; ">"; "<"; "<="; ">="]) eqn:Hop.
  - unfold selection.buildComparison.
    destruct (buildValue _ l) as [lv|] eqn:Hl; simpl; [|done].
    destruct (buildValue _ r) as [rv|] eqn:Hr; simpl; [|done].
    destruct (isConstant lv && isConstant rv) eqn:Hboth.
    + rewrite Hbuilt. simpl. destruct (truthy _) eqn:Htruthy; intros [= <-].
      apply andb_true_iff in Hboth as [? ?].
      split; [done|]. right. exists built. split_and!; [done..|]. right.
      split_and!; [done..|]. by exists operator, l, r, rest, lv, rv.
    + rewrite Hbuilt. simpl.
      destruct (selection.is_op operator ["="; "!="; "<>"]); [|done].
      destruct (selection.has_index lv && isConstant rv);
        [by destruct (selection.is_op operator ["="])|].
      destruct (selection.has_index rv && isConstant lv);
        [by destruct (selection.is_op operator ["="])|done].
  - destruct (selection.is_op operator ["AND"; "OR"]).
    { destruct (selection.buildFilter this l); simpl; [|done].
      destruct (selection.buildFilter this r); simpl; [|done].
      by destruct (selection.is_op operator ["AND"]). }
    destruct (selection.is_op operator ["IS"; "IS NOT"]).
    { destruct (buildValue _ r); simpl; [|done]. case_decide; [|done].
      destruct (buildValue _ l) as [lv|]; simpl; [|done].
      destruct (selection.has_index lv); [|done].
      by destruct (selection.is_op operator ["IS"]). }
    destruct (selection.is_op operator ["IN"; "NOT IN"]).
    { destruct (buildValue _ l) as [lv|]; simpl; [|done].
      destruct (buildValue _ r); simpl; [|done].
      destruct (convert _ _) as [array|]; simpl; [|done].
      destruct (isConstant array && selection.has_single_index lv); [|done].
      by destruct (selection.is_op operator ["IN"]). }
    by rewrite Hbuilt.
Qed.

(** X12. [IS] and [IS NOT], for a predicate whose compiled form is neither
    indexed nor constant. The right operand is compiled first: if it throws,
    or if its type is not the null type, the left operand is not looked at
    and the outcome is that error, or [NotSupported('only IS NULL is
    supported')]. Otherwise a left operand with an index gives the Equality
    node (for [IS]) or the Inequality node (for [IS NOT]) against the right
    value, and one without index a Brute-Force-Scan of the null test. *)
Theorem buildFilter_is_null this operator l r rest built :
  operator = "IS" ∨ operator = "IS NOT" →
  buildValue (selection.as_ISelection this)
    (Node (Some "binary_expr") (Some operator) l r rest) = Ok built →
  index built = None → isConstant built = false →
  (∀ e, buildValue (selection.as_ISelection this) r = Throw e →
     selection.buildFilter this (Node (Some "binary_expr") (Some operator) l r rest) =
     Throw e) ∧
  (∀ rightValue,
     buildValue (selection.as_ISelection this) r = Ok rightValue →
     type rightValue ≠ Types_null →
     selection.buildFilter this (Node (Some "binary_expr") (Some operator) l r rest) =
     Throw (NotSupported "only IS NULL is supported")) ∧
  (∀ rightValue e,
     buildValue (selection.as_ISelection this) r = Ok rightValue →
     type rightValue = Types_null →
     buildValue (selection.as_ISelection this) l = Throw e →
     selection.buildFilter this (Node (Some "binary_expr") (Some operator) l r rest) =
     Throw e) ∧
  (∀ rightValue leftValue,
     buildValue (selection.as_ISelection this) r = Ok rightValue →
     type rightValue = Types_null →
     buildValue (selection.as_ISelection this) l = Ok leftValue →
     selection.buildFilter this (Node (Some "binary_expr") (Some operator) l r rest) =
     Ok (if selection.has_index leftValue
         then (if decide (operator = "IS")
               then EqFilter leftValue [rightValue]
               else NeqFilter leftValue [rightValue])
         else SeqScanFilter this
                (Value_isNull leftValue (bool_decide (operator = "IS"))))).
Proof.
  intros Hop Hbuilt Hindex Hconst.
  rewrite (buildFilter_binary _ _ _ _ _ built) by done.
  unfold selection.buildBinaryFilter, selection.buildBinaryFilter_with.
  split_and!.
  - intros e Hr. by destruct Hop as [-> | ->]; simpl; rewrite Hr.
  - intros rv Hr Hty. destruct Hop as [-> | ->]; simpl; rewrite Hr; simpl;
      by rewrite decide_False.
  - intros rv e Hr Hty Hl. destruct Hop as [-> | ->]; simpl; rewrite Hr; simpl;
      rewrite decide_True by done; by rewrite Hl.
  - intros rv lv Hr Hty Hl. destruct Hop as [-> | ->]; simpl; rewrite Hr; simpl;
      rewrite decide_True by done; rewrite Hl; simpl;
      by destruct (selection.has_index lv).
Qed.

(** X13. The second constant fold. A comparison ([=], [>], [<], [<=],
    [>=]) whose compiled form is not marked constant but whose two operands
    are constant is not converted to boolean: its compiled form is evaluated
    once on the null row, and the plan is the selection itself if the value
    is truthy and the Always-False node otherwise. No index is used, whatever
    the operands carry. *)
Theorem buildFilter_comparison_of_constants this operator l r rest built
    leftValue rightValue :
  operator ∈ ["="; ">"; "<"; "<="; ">="] →
  buildValue (selection.as_ISelection this)
    (Node (Some "binary_expr") (Some operator) l r rest) = Ok built →
  index built = None → isConstant built = false →
  buildValue (selection.as_ISelection this) l = Ok leftValue →
  buildValue (selection.as_ISelection this) r = Ok rightValue →
  isConstant leftValue = true → isConstant rightValue = true →
  selection.buildFilter this (Node (Some "binary_expr") (Some operator) l r rest) =
  Ok (if truthy (get built None) then Self this else FalseFilter this).
Proof.
  intros Hop Hbuilt Hindex Hconst Hl Hr Hlc Hrc.
  rewrite (buildFilter_comparison _ _ _ _ _ built); [|by apply bool_decide_eq_true_2|done..].
  unfold selection.buildComparison. rewrite Hl, Hr. simpl.
  rewrite Hlc, Hrc, Hbuilt. simpl. by destruct (truthy _).
Qed.

(** X14. [AND] and [OR], for a predicate whose compiled form is neither
    indexed nor constant. Both operands are planned by [buildFilter] against
    the same Selection, the left one first: if the left one throws, that is
    the outcome; else if the right one throws, that is the outcome; else the
    plan is [buildAndFilter] of the two plans for [AND] and the Disjunction
    node of the two plans for [OR]. *)
Theorem buildFilter_connective this operator l r rest built :
  operator = "AND" ∨ operator = "OR" →
  buildValue (selection.as_ISelection this)
    (Node (Some "binary_expr") (Some operator) l r rest) = Ok built →
  index built = None → isConstant built = false →
  (∀ e, selection.buildFilter this l = Throw e →
     selection.buildFilter this (Node (Some "binary_expr") (Some operator) l r rest) =
     Throw e) ∧
  (∀ leftFilter e,
     selection.buildFilter this l = Ok leftFilter →
     selection.buildFilter this r = Throw e →
     selection.buildFilter this (Node (Some "binary_expr") (Some operator) l r rest) =
     Throw e) ∧
  (∀ leftFilter rightFilter,
     selection.buildFilter this l = Ok leftFilter →
     selection.buildFilter this r = Ok rightFilter →
     selection.buildFilter this (Node (Some "binary_expr") (Some operator) l r rest) =
     Ok (if decide (operator = "AND")
         then buildAndFilter leftFilter rightFilter
         else OrFilter leftFilter rightFilter)).
Proof.
  intros Hop Hbuilt Hindex Hconst.
  rewrite (buildFilter_binary _ _ _ _ _ built) by done.
  unfold selection.buildBinaryFilter, selection.buildBinaryFilter_with.
  split_and!.
  - intros e Hl. by destruct Hop as [-> | ->]; simpl; rewrite Hl.
  - intros lf e Hl Hr. by destruct Hop as [-> | ->]; simpl; rewrite Hl, Hr.
  - intros lf rf Hl Hr. by destruct Hop as [-> | ->]; simpl; rewrite Hl, Hr.
Qed.

End PlanShape.

(** * Identities across Selections *)

(** A decimal digit. *)
Definition is_digit (a : Ascii.ascii) : Prop :=
  a ∈ String.list_ascii_of_string "0123456789".

Fixpoint all_digits (s : string) : Prop :=
  match s with
  | EmptyString => True
  | String a s' => is_digit a ∧ all_digits s'
  end.

(** The string is empty or starts with something else than a digit. *)
Definition no_leading_digit (s : string) : Prop :=
  match s with
  | EmptyString => True
  | String a _ => ¬ is_digit a
  end.

Section Identities.
Implicit Types (d x y : string) (this : Selection).

Lemma pretty_N_char_digit (n : N) : is_digit (pretty_N_char n).
Proof.
  unfold is_digit, pretty_N_char.
  repeat case_match; apply (bool_decide_unpack _); by vm_compute.
Qed.

Lemma pretty_N_go_digits (n : N) d : all_digits d → all_digits (pretty_N_go n d).
Proof.
  revert d. induction (N.lt_wf_0 n) as [n _ IH]; intros d Hd.
  destruct (decide (n = 0)%N) as [->|Hn]; [by rewrite pretty_N_go_0|].
  rewrite pretty_N_go_step by lia. apply IH.
  - apply N.div_lt; lia.
  - split; [apply pretty_N_char_digit|done].
Qed.

(** The decimal form of a number has digits only. *)
Lemma pretty_nat_digits (n : nat) : all_digits (pretty n).
Proof.
  unfold pretty, pretty_nat, pretty, pretty_N. case_decide.
  - split; [|done]. apply (bool_decide_unpack _). by vm_compute.
  - by apply pretty_N_go_digits.
Qed.

(** Two digit strings, each followed by something that does not go on with
    a digit, are equal when the whole strings are. *)
Lemma digits_app_inj d1 d2 x y :
  all_digits d1 → all_digits d2 → no_leading_digit x → no_leading_digit y →
  d1 +:+ x = d2 +:+ y → d1 = d2.
Proof.
  revert d2. induction d1 as [|a d1 IH]; intros [|b d2] H1 H2 Hx Hy Heq; [done|..].
  - change (x = String b (d2 +:+ y)) in Heq. subst x. by destruct H2.
  - change (String a (d1 +:+ x) = y) in Heq. subst y. by destruct H1.
  - change (String a (d1 +:+ x) = String b (d2 +:+ y)) in Heq.
    injection Heq as -> Heq. f_equal. destruct H1, H2. by apply IH.
Qed.

(** X15. Rows of two Selections made at different values of the counter
    have different identities, as long as no identity of their base rows
    starts with a digit; and the identities that a Selection over an
    explicit list gives start with ["s"], so that the condition holds again
    one layer up. The condition is needed: the prefix ["s1"] before ["0u"]
    and the prefix ["s10"] before ["u"] make the same identity. *)
Theorem sibling_identities_differ :
  (∀ this1 this2 (n m : nat),
     selPrefix this1 = "s" +:+ pretty n → selPrefix this2 = "s" +:+ pretty m →
     n ≠ m →
     (∀ item, item ∈ i_enumerate (base this1) → no_leading_digit (getId item)) →
     (∀ item, item ∈ i_enumerate (base this2) → no_leading_digit (getId item)) →
     ∀ row1 row2,
       row1 ∈ selection.enumerate this1 → row2 ∈ selection.enumerate this2 →
       getId row1 ≠ getId row2) ∧
  (∀ this (n : nat),
     selPrefix this = "s" +:+ pretty n →
     ∀ row, row ∈ selection.enumerate this → no_leading_digit (getId row)) ∧
  ("s" +:+ pretty 1) +:+ "0u" = ("s" +:+ pretty 10) +:+ "u".
Proof.
  split_and!; [| |by vm_compute].
  - intros this1 this2 n m Hp1 Hp2 Hne Hb1 Hb2 row1 row2 Hr1 Hr2 Heq.
    unfold selection.enumerate in Hr1, Hr2.
    apply list_elem_of_fmap in Hr1 as (item1 & -> & Hi1).
    apply list_elem_of_fmap in Hr2 as (item2 & -> & Hi2).
    rewrite !project_id, Hp1, Hp2, !String_app_assoc in Heq.
    apply (inj (String.append "s")) in Heq.
    apply digits_app_inj in Heq; [|apply pretty_nat_digits..|by auto|by auto].
    by apply (inj pretty) in Heq.
  - intros this n Hp row Hrow. unfold selection.enumerate in Hrow.
    apply list_elem_of_fmap in Hrow as (item & -> & _).
    rewrite project_id, Hp, String_app_assoc.
    match goal with
    | |- no_leading_digit ?s => let s' := eval hnf in s in change (no_leading_digit s')
    end.
    unfold no_leading_digit, is_digit. intros Hin%(bool_decide_pack _). by vm_compute in Hin.
Qed.

End Identities.

(** * What nesting passes through *)

Section PassThrough.
Context {ext : Externals}.

(** X16. A chain of nested Selections over explicit column lists, however
    deep, answers [entropy], [hasItem] and [getIndex] as its source does,
    and yields as many rows as the source. *)
Theorem nest_passes_through (src : _ISelection) (layers : list (list SelectItem))
    (selCnt : nat) (r : _ISelection) (selCnt' : nat) :
  nest src layers selCnt = (Ok r, selCnt') →
  i_entropy r = i_entropy src ∧
  i_hasItem r = i_hasItem src ∧
  i_getIndex r = i_getIndex src ∧
  length (i_enumerate r) = length (i_enumerate src).
Proof.
  revert src selCnt. induction layers as [|items outer IH]; intros src selCnt Hnest;
    cbn [nest] in Hnest.
  - by injection Hnest as <- <-.
  - destruct (selection.buildSelection src (Columns items) selCnt)
      as [[inner|e] n] eqn:Hsel; [|done].
    apply buildSelection_columns in Hsel as (-> & s & -> & <- & _).
    apply IH in Hnest as (-> & -> & -> & ->).
    split_and!; [done..|]. apply length_fmap.
Qed.

End PassThrough.

(** * The planner on the instance *)

Import Fixture.
#[local] Existing Instance collaborators.

(** The Selection [users_sel] is what the constructor builds over [users]
    from the list [id, name, active] when the counter is at [0]. *)
Example constructor_builds_users_sel :
  selection.constructor users
    (WArray [item (column_ref "id"); item (column_ref "name");
             item (column_ref "active")]) 0 = (Ok users_sel, 1).
Proof. by vm_compute. Qed.

Lemma buildFilter_indexed_predicate_witness :
  selection.buildFilter users_sel (column_ref "active") =
  Ok (EqFilter col_active [Value_bool true]).
Proof.
  pose proof (buildFilter_indexed_predicate users_sel (column_ref "active")
                col_active (mkIndex [plain "active" Types_bool])
                eq_refl eq_refl) as (_ & _ & Hbool).
  apply (Hbool (plain "active" Types_bool)); reflexivity.
Defined.

Lemma buildFilter_constant_predicate_witness :
  selection.buildFilter users_sel (binary_expr "=" (number "1") (number "1")) =
    Ok (Self users_sel) ∧
  selection.buildFilter users_sel (binary_expr "=" (number "1") (number "2")) =
    Ok (FalseFilter users_sel).
Proof.
  split.
  - pose proof (buildFilter_constant_predicate users_sel
                  (binary_expr "=" (number "1") (number "1")) _ _
                  eq_refl eq_refl eq_refl eq_refl) as [Hplan _].
    exact Hplan.
  - pose proof (buildFilter_constant_predicate users_sel
                  (binary_expr "=" (number "1") (number "2")) _ _
                  eq_refl eq_refl eq_refl eq_refl) as [Hplan _].
    exact Hplan.
Defined.

Lemma buildBinaryFilter_membership_witness :
  selection.buildBinaryFilter users_sel
    (binary_expr "IN" (column_ref "id") expr_list) =
    Ok (InFilter col_id (literal (ArrayType Types_int) (SObject "[1,2]"))) ∧
  selection.buildBinaryFilter users_sel
    (binary_expr "NOT IN" (column_ref "name") expr_list) =
    Ok (SeqScanFilter users_sel
          (Value_in col_name (literal (ArrayType Types_int) (SObject "[1,2]")) false)).
Proof.
  split.
  - pose proof (buildBinaryFilter_membership users_sel (Some "binary_expr")
                  (Some "IN") (column_ref "id") expr_list "" _ _ _
                  (or_introl eq_refl) eq_refl eq_refl eq_refl) as (Hyes & _ & _).
    apply Hyes. split; [reflexivity|].
    by exists (mkIndex [plain "id" Types_int]), (plain "id" Types_int).
  - pose proof (buildBinaryFilter_membership users_sel (Some "binary_expr")
                  (Some "NOT IN") (column_ref "name") expr_list "" _ _ _
                  (or_intror eq_refl) eq_refl eq_refl eq_refl) as (_ & Hno & _).
    apply Hno. intros (_ & i & key & Hi & _). discriminate Hi.
Defined.

Lemma buildFilter_equality_indexed_witness :
  selection.buildFilter users_sel
    (binary_expr "=" (column_ref "id") (number "1")) =
    Ok (EqFilter col_id [literal Types_int (SNum 1)]) ∧
  selection.buildFilter users_sel
    (binary_expr "=" (number "1") (column_ref "id")) =
    Ok (EqFilter col_id [literal Types_int (SNum 1)]).
Proof.
  split.
  - pose proof (buildFilter_equality_indexed users_sel (column_ref "id")
                  (number "1") "" _ _ _ eq_refl eq_refl eq_refl eq_refl eq_refl
                  eq_refl) as [Hleft _].
    apply Hleft; reflexivity.
  - pose proof (buildFilter_equality_indexed users_sel (number "1")
                  (column_ref "id") "" _ _ _ eq_refl eq_refl eq_refl eq_refl
                  eq_refl eq_refl) as [_ Hright].
    apply Hright; reflexivity.
Defined.

Lemma buildFilter_ordering_scans_witness :
  ∃ getter,
    selection.buildFilter users_sel
      (binary_expr "<=" (column_ref "id") (number "1")) =
    Ok (SeqScanFilter users_sel getter).
Proof.
  eexists.
  apply (buildFilter_ordering_scans users_sel "<=" (column_ref "id") (number "1")
           "" _ col_id (literal Types_int (SNum 1)));
    [by apply (bool_decide_unpack _)|reflexivity..].
Defined.

Lemma buildFilter_unsupported_kind_witness :
  selection.buildFilter users_sel (column_ref "name") =
  Throw (NotSupported "condition column_ref").
Proof.
  apply (buildFilter_unsupported_kind users_sel (Some "column_ref") None Nullish
           Nullish "name" col_name); [discriminate|reflexivity..].
Defined.

(** C1, on the instance. With [id] an indexed column and [1] a constant,
    [buildFilter] answers [id != 1], [id <> 1] and [1 != id] with a
    Brute-Force-Scan node: [buildBinaryFilter] has no [case] for ['!='] and
    ['<>'], so the Inequality branch of [buildComparison], which would build
    the node keyed on [id], is never reached from [buildFilter]. *)
Theorem buildFilter_inequality_scans :
  (∃ getter,
     selection.buildFilter users_sel
       (binary_expr "!=" (column_ref "id") (number "1")) =
     Ok (SeqScanFilter users_sel getter)) ∧
  (∃ getter,
     selection.buildFilter users_sel
       (binary_expr "<>" (column_ref "id") (number "1")) =
     Ok (SeqScanFilter users_sel getter)) ∧
  (∃ getter,
     selection.buildFilter users_sel
       (binary_expr "!=" (number "1") (column_ref "id")) =
     Ok (SeqScanFilter users_sel getter)) ∧
  selection.buildComparison users_sel
    (binary_expr "!=" (column_ref "id") (number "1")) =
    Ok (NeqFilter col_id [literal Types_int (SNum 1)]) ∧
  selection.buildComparison users_sel
    (binary_expr "!=" (number "1") (column_ref "id")) =
    Ok (NeqFilter col_id [literal Types_int (SNum 1)]) ∧
  selection.buildFilter users_sel
    (binary_expr "=" (column_ref "id") (number "1")) =
    Ok (EqFilter col_id [literal Types_int (SNum 1)]).
Proof.
  repeat split; try (eexists; vm_compute; reflexivity); vm_compute; reflexivity.
Qed.

(** C5 as stated fails. The object [{}] is what null-stripping leaves of a
    predicate with only null-ish properties; [filter] hands it to
    [buildFilter], and here the value compiler refuses it. The same happens
    when stripping is taken to leave [null] itself. *)
Lemma filter_stripped_to_nothing_not_self :
  trimNullish empty_object = empty_object ∧
  selection.filter users_sel empty_object ≠ Ok (Self users_sel) ∧
  selection.filter
    (ext := {| buildValue := compile; trimNullish := λ _, Nullish;
               convert := convert; IValue_setId := IValue_setId;
               Evaluator := Evaluator; Value_bool := Value_bool;
               Value_isNull := Value_isNull; Value_in := Value_in |})
    users_sel empty_object ≠ Ok (Self users_sel).
Proof. repeat split; vm_compute; discriminate. Qed.

Lemma nested_selection_identity_witness :
  ∃ r,
    nest users [[item (column_ref "id"); item (column_ref "name")];
                [item (column_ref "id")]] 0 = (Ok r, 2) ∧
    getId <$> i_enumerate r = ["s1s0u1"; "s1s0u2"] ∧
    NoDup (getId <$> i_enumerate r).
Proof.
  eexists. split; [reflexivity|].
  pose proof (nested_selection_identity users
                [[item (column_ref "id"); item (column_ref "name")];
                 [item (column_ref "id")]] 0 _ 2 eq_refl)
    as (_ & Hids & _ & Hnodup).
  split; [exact Hids|].
  apply Hnodup. apply (bool_decide_unpack _). by vm_compute.
Defined.

(** Columns [a], an unnamed [1] and an unnamed [2] over [users]. *)
Lemma enumerate_output_keys_witness :
  columnIds [plain "a" Types_int; literal Types_int (SNum 1);
             literal Types_int (SNum 2)] = ["a"; "column0"; "column1"] ∧
  (λ row, (cells row !! "column0", cells row !! "column1"))
    <$> selection.enumerate
          {| base := users; selPrefix := "s0";
             columns := [plain "a" Types_int; literal Types_int (SNum 1);
                         literal Types_int (SNum 2)];
             columnsById := ∅ |} =
  [(Some (SNum 1), Some (SNum 2)); (Some (SNum 1), Some (SNum 2))].
Proof.
  pose proof (enumerate_output_keys
                {| base := users; selPrefix := "s0";
                   columns := [plain "a" Types_int; literal Types_int (SNum 1);
                               literal Types_int (SNum 2)];
                   columnsById := ∅ |}) as [Habc _].
  destruct (Habc _ _ _ eq_refl eq_refl eq_refl eq_refl) as [Hkeys Hrows].
  split; [exact Hkeys|]. rewrite Hrows. reflexivity.
Defined.

(** The names ["column0"] and ["column2"] are taken by explicit ids: the
    unnamed columns get ["column1"] and ["column3"]. *)
Example columnIds_skips_explicit_ids :
  columnIds [plain "column2" Types_int; literal Types_int (SNum 1);
             plain "column0" Types_int; literal Types_int (SNum 2)] =
  ["column2"; "column1"; "column0"; "column3"].
Proof. by vm_compute. Qed.

(** C9 as stated fails. Two calls of [select] on the same Selection with
    the same column list, one after the other: the first moves the counter
    from 1 to 2, and the rows of the two results carry different
    identities. *)
Lemma select_twice_differs :
  ∃ r1 r2,
    selection.select users_sel (Columns [item (column_ref "id")]) 1 = (Ok r1, 2) ∧
    selection.select users_sel (Columns [item (column_ref "id")]) 2 = (Ok r2, 3) ∧
    getId <$> i_enumerate r1 = ["s1s0u1"; "s1s0u2"] ∧
    getId <$> i_enumerate r2 = ["s2s0u1"; "s2s0u2"].
Proof. do 2 eexists. split_and!; by vm_compute. Qed.

(** C10. [hasItem] and [entropy] of a Selection are those of its base: for
    the rows of the base it says what the base says, and a row that
    [enumerate] has just built, which carries the prefixed identity, is an
    item only if the base takes it for one of its own. On the instance
    [hasItem] is false on every row that [enumerate] yields. *)
Theorem hasItem_entropy_of_base :
  (∀ (this : Selection) (value : Row),
     selection.hasItem this value = i_hasItem (base this) value ∧
     selection.entropy this = i_entropy (base this)) ∧
  (∀ up, up ∈ i_enumerate (base users_sel) →
     selection.hasItem users_sel up = true) ∧
  (∀ row, row ∈ selection.enumerate users_sel →
     selection.hasItem users_sel row = false).
Proof.
  split_and!; [done| |].
  - intros up Hin. change (i_enumerate (base users_sel)) with rows in Hin.
    unfold rows in Hin.
    repeat (apply elem_of_cons in Hin as [->|Hin]; [by vm_compute|]).
    by apply elem_of_nil in Hin.
  - intros row Hin.
    assert (getId row ∈ getId <$> selection.enumerate users_sel) as Hid
      by (by apply list_elem_of_fmap_2).
    rewrite enumerate_ids in Hid.
    apply list_elem_of_fmap in Hid as (up & Hrow & Hin').
    change (selection.hasItem users_sel row) with
      (bool_decide (getId row ∈ row_id <$> rows)).
    rewrite Hrow. clear Hrow Hin.
    change (i_enumerate (base users_sel)) with rows in Hin'. unfold rows in Hin'.
    repeat (apply elem_of_cons in Hin' as [->|Hin']; [by vm_compute|]).
    by apply elem_of_nil in Hin'.
Qed.

(** ** More of the planner on the instance *)

(** The literal [NULL]. *)
Definition null_literal : Ast := Node (Some "null") None Nullish Nullish "".

(** A value compiler that does not mark a binary expression constant, even
    when both operands are. *)
Definition compile_unmarked (on : _ISelection) (e : Ast) : Result IValue :=
  let! v := compile on e in
  Ok (match e with
      | Node (Some "binary_expr") _ _ _ _ =>
          mkValue (id v) (type v) false (index v) (get v)
      | _ => v
      end).

Definition collaborators_unmarked : Externals :=
  {| buildValue := compile_unmarked; trimNullish := trimNullish;
     convert := convert; IValue_setId := IValue_setId; Evaluator := Evaluator;
     Value_bool := Value_bool; Value_isNull := Value_isNull;
     Value_in := Value_in |}.

(** [SELECT 1 FROM users], built when the counter is at [5]. *)
Definition ones_sel : Selection :=
  {| base := users; selPrefix := "s5";
     columns := [literal Types_int (SNum 1)];
     columnsById := <["" := literal Types_int (SNum 1)]> ∅ |}.

Example constructor_builds_ones_sel :
  selection.constructor users (WArray [item (number "1")]) 5 = (Ok ones_sel, 6).
Proof. by vm_compute. Qed.

Lemma getColumn_after_constructor_witness :
  selection.getColumn users_sel "name" = Ok col_name ∧
  selection.getColumn users_sel "age" = Throw (ColumnNotFound "age").
Proof.
  pose proof (getColumn_after_constructor users _ 0 users_sel 1
                constructor_builds_users_sel) as (Hlast & _ & Hrest).
  split.
  - apply (Hlast 1 col_name); [done|].
    intros [|[|[|j]]] c' Hj Hc'; try lia; simpl in Hc'; [|done].
    by injection Hc' as <-.
  - apply Hrest.
    + intros c Hc. unfold users_sel in Hc. simpl in Hc.
      repeat (apply elem_of_cons in Hc as [->|Hc]; [done|]).
      by apply elem_of_nil in Hc.
    + unfold Object_prototype_names. rewrite !not_elem_of_cons.
      split_and!; try done. apply not_elem_of_nil.
    + intros c Hc. unfold users_sel in Hc. simpl in Hc.
      repeat (apply elem_of_cons in Hc as [->|Hc]; [done|]).
      by apply elem_of_nil in Hc.
Defined.

Lemma getColumn_of_synthesized_key_witness :
  selection.getColumn ones_sel "column0" = Throw (ColumnNotFound "column0") ∧
  (λ row, cells row !! "column0") <$> selection.enumerate ones_sel =
    [Some (SNum 1); Some (SNum 1)].
Proof.
  split; [|by vm_compute].
  assert (columnIds (columns ones_sel) !! 0 = Some "column0") as Hkey
    by (by vm_compute).
  pose proof (getColumn_of_synthesized_key users _ 5 ones_sel 6
                constructor_builds_ones_sel 0 (literal Types_int (SNum 1))
                "column0" eq_refl eq_refl Hkey) as [Hmissing _].
  exact Hmissing.
Defined.

Lemma buildFilter_plan_over_witness :
  plan_over users_sel
    (buildAndFilter (EqFilter col_id [literal Types_int (SNum 1)])
       (SeqScanFilter users_sel (Value_isNull col_name true))).
Proof.
  apply (buildFilter_plan_over users_sel
           (binary_expr "AND"
              (binary_expr "=" (column_ref "id") (number "1"))
              (binary_expr "IS" (column_ref "name") null_literal))).
  by vm_compute.
Defined.

Lemma filter_returns_receiver_witness :
  users_sel = users_sel ∧
  ∃ built,
    buildValue (selection.as_ISelection users_sel)
      (binary_expr "=" (number "1") (number "1")) = Ok built ∧
    isConstant built = true.
Proof.
  destruct (filter_returns_receiver users_sel
              (binary_expr "=" (number "1") (number "1")) users_sel)
    as [Hs [Habsent|(built & Hbuilt & _ & [[Hc _]|[Hc _]])]].
  - by vm_compute.
  - discriminate Habsent.
  - split; [done|]. by exists built.
  - exfalso. change (trimNullish ?e) with e in Hbuilt.
    assert (isConstant built = true) as Htrue; [|congruence].
    assert (Ok built = compile (selection.as_ISelection users_sel)
                         (binary_expr "=" (number "1") (number "1"))) as Heq
      by (symmetry; exact Hbuilt).
    vm_compute in Heq. by injection Heq as ->.
Defined.

Lemma buildFilter_is_null_witness :
  selection.buildFilter users_sel
    (binary_expr "IS" (column_ref "name") null_literal) =
    Ok (SeqScanFilter users_sel (Value_isNull col_name true)) ∧
  selection.buildFilter users_sel
    (binary_expr "IS NOT" (column_ref "id") null_literal) =
    Ok (NeqFilter col_id [literal Types_null SNull]) ∧
  selection.buildFilter users_sel
    (binary_expr "IS" (column_ref "name") (number "1")) =
    Throw (NotSupported "only IS NULL is supported").
Proof.
  split_and!.
  - pose proof (buildFilter_is_null users_sel "IS" (column_ref "name")
                  null_literal "" _ (or_introl eq_refl) eq_refl eq_refl eq_refl)
      as (_ & _ & _ & Hok).
    apply (Hok (literal Types_null SNull) col_name); reflexivity.
  - pose proof (buildFilter_is_null users_sel "IS NOT" (column_ref "id")
                  null_literal "" _ (or_intror eq_refl) eq_refl eq_refl eq_refl)
      as (_ & _ & _ & Hok).
    apply (Hok (literal Types_null SNull) col_id); reflexivity.
  - pose proof (buildFilter_is_null users_sel "IS" (column_ref "name")
                  (number "1") "" _ (or_introl eq_refl) eq_refl eq_refl eq_refl)
      as (_ & Hno & _).
    apply (Hno (literal Types_int (SNum 1))); [reflexivity|discriminate].
Defined.

Lemma buildFilter_comparison_of_constants_witness :
  selection.buildFilter (ext := collaborators_unmarked) users_sel
    (binary_expr "=" (number "1") (number "2")) = Ok (FalseFilter users_sel) ∧
  selection.buildFilter (ext := collaborators_unmarked) users_sel
    (binary_expr "=" (number "1") (number "1")) = Ok (Self users_sel).
Proof.
  assert ("=" ∈ ["="; ">"; "<"; "<="; ">="]) as Hop
    by (by apply (bool_decide_unpack _)).
  split.
  - pose proof (buildFilter_comparison_of_constants (ext := collaborators_unmarked)
                  users_sel "=" (number "1") (number "2") "" _ _ _
                  Hop eq_refl eq_refl eq_refl eq_refl eq_refl eq_refl eq_refl)
      as Hplan.
    exact Hplan.
  - pose proof (buildFilter_comparison_of_constants (ext := collaborators_unmarked)
                  users_sel "=" (number "1") (number "1") "" _ _ _
                  Hop eq_refl eq_refl eq_refl eq_refl eq_refl eq_refl eq_refl)
      as Hplan.
    exact Hplan.
Defined.

Lemma buildFilter_connective_witness :
  selection.buildFilter users_sel
    (binary_expr "OR" (binary_expr "=" (column_ref "id") (number "1"))
                      (binary_expr "=" (column_ref "id") (number "2"))) =
    Ok (OrFilter (EqFilter col_id [literal Types_int (SNum 1)])
                 (EqFilter col_id [literal Types_int (SNum 2)])) ∧
  selection.buildFilter users_sel
    (binary_expr "AND" (binary_expr "=" (column_ref "age") (number "1"))
                       (binary_expr "=" (column_ref "id") (number "2"))) =
    Throw (ColumnNotFound "age").
Proof.
  split.
  - pose proof (buildFilter_connective users_sel "OR"
                  (binary_expr "=" (column_ref "id") (number "1"))
                  (binary_expr "=" (column_ref "id") (number "2")) "" _
                  (or_intror eq_refl) eq_refl eq_refl eq_refl) as (_ & _ & Hok).
    apply (Hok (EqFilter col_id [literal Types_int (SNum 1)])
               (EqFilter col_id [literal Types_int (SNum 2)])); by vm_compute.
  - by vm_compute.
Defined.

Lemma nest_passes_through_witness :
  ∃ r,
    nest users [[item (column_ref "id"); item (column_ref "name")];
                [item (column_ref "id")]] 0 = (Ok r, 2) ∧
    i_entropy r = 2%Z ∧ length (i_enumerate r) = 2.
Proof.
  eexists. split; [reflexivity|].
  pose proof (nest_passes_through users
                [[item (column_ref "id"); item (column_ref "name")];
                 [item (column_ref "id")]] 0 _ 2 eq_refl)
    as (Hentropy & _ & _ & Hlen).
  split; [exact Hentropy|exact Hlen].
Defined.

(** Two columns named [a]: the rows have one cell, that of the second
    column. *)
Example duplicate_id_loses_a_column :
  (λ row, (size (cells row), cells row !! "a"))
    <$> selection.enumerate
          {| base := users; selPrefix := "s0";
             columns := [plain "a" Types_int; literal Types_int (SNum 7)];
             columnsById := ∅ |} =
    [(2, Some SNull); (2, Some SNull)] ∧
  (λ row, (size (cells row), cells row !! "a"))
    <$> selection.enumerate
          {| base := users; selPrefix := "s0";
             columns := [plain "a" Types_int;
                         mkValue "a" Types_int true None (λ _, SNum 7)];
             columnsById := ∅ |} =
    [(1, Some (SNum 7)); (1, Some (SNum 7))].
Proof. split; by vm_compute. Qed.

(** A column named [__proto__] before a column named [a]: the two keys
    differ, and the rows have one cell, that of [a]. *)
Example proto_id_makes_no_cell :
  (λ row, (size (cells row), cells row !! "__proto__", cells row !! "a"))
    <$> selection.enumerate
          {| base := users; selPrefix := "s0";
             columns := [mkValue "__proto__" Types_int true None (λ _, SNum 7);
                         mkValue "a" Types_int true None (λ _, SNum 8)];
             columnsById := ∅ |} =
    [(1, None, Some (SNum 8)); (1, None, Some (SNum 8))].
Proof. by vm_compute. Qed.
